(** * vue-types: descriptors and the validation engine

    A shallow embedding of [src/utils.js] (the validation engine, [toType],
    [def], [isRequired], [validate]) and of [src/index.js] (the builders
    [custom], [oneOf], [oneOfType], [shape], ... and the registry extended by
    [extend]), followed by the properties proved about them.

    Conventions of the embedding:
    - JavaScript values are a first-order inductive [value]; objects carry
      the address [loc] that strict equality compares.
    - A value used in `type` position (null, undefined, a constructor, an
      array, a plain object) is a [tyval]; a plain object there is a
      descriptor.
    - Code that reads or swaps the module variable `warn`, or that may throw,
      lives in the monad [M] (state passing plus exceptions).
    - Functions stored in descriptors are Rocq functions
      [this_ctx -> list value -> M bool]: the receiver's data fields and the
      argument list.
    - An object literal is the list of its own keys; a key [constructor],
      [toString] or [valueOf] of its own shadows what it inherits. A step
      that may fail on a value ([`${v}`], [v.constructor.toString()]) gives
      a [Js.attempt]: a result, a TypeError, or [Outside] where the code
      would call a function that a value holds, which has no body here. No
      property is stated about a run cut by [Outside]. *)

From Stdlib Require Import ZArith Lia.
From stdpp Require Import base decidable option list strings pretty gmap.

Set Warnings "-register-all".

(** ** JavaScript values *)

Definition loc := nat.

(** Constructors that occur as native types.  [CUser id fname] is any other
    constructor function; [fname] is what [FN_MATCH_REGEXP]
    ([/^\s*function (\w+)/]) extracts from its source text, [None] when the
    text does not match (class syntax, anonymous functions). *)
Inductive ctor :=
| CString | CNumber | CBoolean | CFunction | CArray | CObject | CSymbol
| CUser (id : nat) (fname : option string).

#[global] Instance ctor_eq_dec : EqDecision ctor.
Proof. solve_decision. Defined.

(** Numbers: NaN, the infinities, the integers, and the finite numbers
    that are not integers. [Int z] is the number [z]; such a number is a
    double, so beyond 2^53 only the multiples of the spacing occur.
    [Frac text] is a number with a fractional part, given by the text that
    JavaScript prints for it ([0.1], [1.5e-7]); that text determines the
    number. *)
Inductive number :=
| NaN | Infinity (negative : bool) | Int (z : Z) | Frac (text : string).

#[global] Instance number_eq_dec : EqDecision number.
Proof. solve_decision. Defined.

Inductive value :=
| VUndefined
| VNull
| VBool (b : bool)
| VNum (n : number)
| VStr (s : string)
| VSym (id : nat)
| VFun (l : loc) (src : string)
| VArr (l : loc) (xs : list value)
| VObj (l : loc) (props : list (string * value))
| VInst (l : loc) (c : ctor) (supers : list ctor).

(** [VSym id]: a symbol made by [Symbol()].
    [VFun l src]: a function object, [src] its source text; it is none of
    the constructors of [ctor]. The embedding has no body for it: where the
    code would call a function that a value holds, the run is cut with
    [Outside].
    [VArr l xs]: an array without holes and without properties of its own
    beside its elements.
    [VObj l props]: an object made by an object literal, with its own
    enumerable keys in order; its prototype is [Object.prototype], and what
    it inherits ([constructor], [toString], [valueOf]) can be shadowed by a
    key of its own.
    [VInst l c supers]: an object made by [new c], whose prototype chain
    goes through [supers]; it has no properties of its own and its classes
    do not override [toString]. *)

Module Js.

(** What a step that may fail yields: a result, a TypeError with its
    message, or [Outside f] when the step calls the function [f] held by a
    value, or needs a value in a place where the embedding cannot put it. *)
Inductive attempt (A : Type) :=
| Got (a : A)
| Raises (msg : string)
| Outside (v : value).
Arguments Got {A} a.
Arguments Raises {A} msg.
Arguments Outside {A} v.

Definition and_then {A B} (m : attempt A) (k : A -> attempt B) : attempt B :=
  match m with
  | Got a => k a
  | Raises msg => Raises msg
  | Outside v => Outside v
  end.

(** [obj[key]] among the own properties of an object. *)
Fixpoint own (props : list (string * value)) (key : string) : option value :=
  match props with
  | [] => None
  | (k, x) :: props' => if bool_decide (k = key) then Some x else own props' key
  end.

(** [typeof v === 'function'] *)
Definition callable (v : value) : bool :=
  match v with VFun _ _ => true | _ => false end.

(** *** Number::toString *)

Definition digits (x : Z) : Z := Z.of_nat (String.length (pretty x)).

(** The decimal [c] reads back as the double [x]: it lies within half the
    distance to the neighbours of [x], the ends counting when the
    significand of [x] is even. *)
Definition reads_back (x c : Z) : bool :=
  let ulp := (2 ^ (Z.log2 x - 52))%Z in
  let m := (x / ulp)%Z in
  let below := if (m =? 2 ^ 52)%Z then (ulp / 4)%Z else (ulp / 2)%Z in
  let above := (ulp / 2)%Z in
  if Z.even m then (x - below <=? c)%Z && (c <=? x + above)%Z
  else (x - below <? c)%Z && (c <? x + above)%Z.

(** The decimal of [k] significant digits that reads back as [x], the
    nearest one if there are two. *)
Definition shortest_at (x k : Z) : option Z :=
  if (digits x <=? k)%Z then Some x
  else
    let p := (10 ^ (digits x - k))%Z in
    let lo := (x / p * p)%Z in
    let hi := (lo + p)%Z in
    match reads_back x lo, reads_back x hi with
    | true, true =>
        Some (if (x - lo <? hi - x)%Z then lo
              else if (hi - x <? x - lo)%Z then hi
              else if Z.even (lo / p) then lo else hi)
    | true, false => Some lo
    | false, true => Some hi
    | false, false => None
    end.

(** The decimal with the fewest significant digits that reads back as the
    double [x]; seventeen digits always do. *)
Definition shortest (x : Z) : Z :=
  default x (head (omap (fun k => shortest_at x (Z.of_nat k)) (seq 1 17))).

Fixpoint strip_zeros (s : string) : string :=
  match s with
  | EmptyString => EmptyString
  | String a s' =>
      let r := strip_zeros s' in
      if bool_decide (r = EmptyString) && Ascii.eqb a (Ascii.ascii_of_nat 48)
      then EmptyString else String a r
  end.

(** An integer from 2^53 on: the digits of [shortest], followed by zeros
    below 10^21 and by the exponent from there on. *)
Definition big_to_string (x : Z) : string :=
  let text := pretty (shortest x) in
  let n := Z.of_nat (String.length text) in
  if (n <=? 21)%Z then text
  else
    match strip_zeros text with
    | String d rest =>
        String d (if bool_decide (rest = EmptyString) then EmptyString
                  else "." +:+ rest)
        +:+ "e+" +:+ pretty (n - 1)%Z
    | EmptyString => text
    end.

Definition number_to_string (n : number) : string :=
  match n with
  | NaN => "NaN"
  | Infinity false => "Infinity"
  | Infinity true => "-Infinity"
  | Int z =>
      if (Z.abs z <? 2 ^ 53)%Z then pretty z
      else (if (z <? 0)%Z then "-" else EmptyString)
           +:+ big_to_string (Z.abs z)
  | Frac text => text
  end.

(** *** Conversion to a string *)

(** [join_with f sep l]: [Array.prototype.join] where [f] converts an
    element and may fail. *)
Fixpoint join_with {A} (f : A -> attempt string) (sep : string) (l : list A)
  : attempt string :=
  match l with
  | [] => Got EmptyString
  | x :: l' =>
      match f x with
      | Got s =>
          match l' with
          | [] => Got s
          | _ :: _ =>
              match join_with f sep l' with
              | Got r => Got (s +:+ sep +:+ r)
              | Raises msg => Raises msg
              | Outside v => Outside v
              end
          end
      | Raises msg => Raises msg
      | Outside v => Outside v
      end
  end.

(** OrdinaryToPrimitive with hint string on an object literal: [toString]
    then [valueOf], each called if it is callable. The inherited [toString]
    gives [[object Object]]; the inherited [valueOf] gives the object back,
    which is no primitive. *)
Definition object_to_string (props : list (string * value)) : attempt string :=
  match own props "toString" with
  | None => Got "[object Object]"
  | Some f =>
      if callable f then Outside f
      else
        match own props "valueOf" with
        | Some g =>
            if callable g then Outside g
            else Raises "Cannot convert object to primitive value"
        | None => Raises "Cannot convert object to primitive value"
        end
  end.

(** The conversion done by a template literal, [`${v}`]. *)
Fixpoint to_string (v : value) : attempt string :=
  match v with
  | VUndefined => Got "undefined"
  | VNull => Got "null"
  | VBool true => Got "true"
  | VBool false => Got "false"
  | VNum n => Got (number_to_string n)
  | VStr s => Got s
  | VSym _ => Raises "Cannot convert a Symbol value to a string"
  | VFun _ src => Got src
  | VArr _ xs =>
      join_with
        (fun x => match x with
                  | VUndefined | VNull => Got EmptyString
                  | _ => to_string x
                  end) "," xs
  | VObj _ props => object_to_string props
  | VInst _ _ _ => Got "[object Object]"
  end.

(** [arr.join(sep)] on an array of values. *)
Definition array_join (sep : string) (xs : list value) : attempt string :=
  join_with
    (fun x => match x with
              | VUndefined | VNull => Got EmptyString
              | _ => to_string x
              end) sep xs.

(** The method call [x.toString()]. *)
Definition method_toString (x : value) : attempt string :=
  match x with
  | VUndefined =>
      Raises "Cannot read properties of undefined (reading 'toString')"
  | VNull => Raises "Cannot read properties of null (reading 'toString')"
  | VSym _ => Got "Symbol()"
  | VObj _ props =>
      match own props "toString" with
      | None => Got "[object Object]"
      | Some f =>
          if callable f then Outside f else Raises "toString is not a function"
      end
  | _ => to_string x
  end.

(** *** [FN_MATCH_REGEXP], [/^\s*function (\w+)/] *)

Definition is_space (a : Ascii.ascii) : bool :=
  let n := Ascii.nat_of_ascii a in
  (n =? 32) || ((9 <=? n) && (n <=? 13)).

Definition is_word (a : Ascii.ascii) : bool :=
  let n := Ascii.nat_of_ascii a in
  ((48 <=? n) && (n <=? 57)) || ((65 <=? n) && (n <=? 90))
  || ((97 <=? n) && (n <=? 122)) || (n =? 95).

Fixpoint skip_spaces (s : string) : string :=
  match s with
  | String a s' => if is_space a then skip_spaces s' else s
  | EmptyString => s
  end.

Fixpoint strip_prefix (p s : string) : option string :=
  match p, s with
  | EmptyString, _ => Some s
  | String a p', String b s' =>
      if Ascii.eqb a b then strip_prefix p' s' else None
  | String _ _, EmptyString => None
  end.

Fixpoint take_word (s : string) : string :=
  match s with
  | String a s' => if is_word a then String a (take_word s') else EmptyString
  | EmptyString => EmptyString
  end.

(** [s.match(FN_MATCH_REGEXP)], first group; [None] is no match. *)
Definition fn_match (s : string) : option string :=
  match strip_prefix "function " (skip_spaces s) with
  | Some rest =>
      match take_word rest with
      | EmptyString => None
      | name => Some name
      end
  | None => None
  end.

(** *** Equality, truthiness, constructors *)

Definition number_eq (m n : number) : bool :=
  match m, n with
  | Infinity a, Infinity b => bool_decide (a = b)
  | Int a, Int b => bool_decide (a = b)
  | Frac s, Frac t => bool_decide (s = t)
  | _, _ => false
  end.

(** [a === b] *)
Definition strict_eq (a b : value) : bool :=
  match a, b with
  | VUndefined, VUndefined => true
  | VNull, VNull => true
  | VBool x, VBool y => bool_decide (x = y)
  | VNum m, VNum n => number_eq m n
  | VStr s, VStr t => bool_decide (s = t)
  | VSym i, VSym j => bool_decide (i = j)
  | VFun l _, VFun l' _ => bool_decide (l = l')
  | VArr l _, VArr l' _ => bool_decide (l = l')
  | VObj l _, VObj l' _ => bool_decide (l = l')
  | VInst l _ _, VInst l' _ _ => bool_decide (l = l')
  | _, _ => false
  end.

(** [v === undefined] *)
Definition is_undefined (v : value) : bool :=
  match v with VUndefined => true | _ => false end.

(** [arr.indexOf(v) !== -1] *)
Definition includes_strict (arr : list value) (v : value) : bool :=
  existsb (fun a => strict_eq a v) arr.

(** [!!v] *)
Definition truthy (v : value) : bool :=
  match v with
  | VUndefined | VNull => false
  | VBool b => b
  | VNum NaN => false
  | VNum (Int z) => negb (bool_decide (z = 0%Z))
  | VNum (Infinity _) => true
  | VNum (Frac _) => true
  | VStr s => negb (bool_decide (s = EmptyString))
  | _ => true
  end.

(** What the property read [v.constructor] gives: the constructor found on
    the prototype chain, or the value an object literal holds under a key
    [constructor] of its own. *)
Inductive constructor_value :=
| Native (c : ctor)
| Held (x : value).

(** [v.constructor] for [v] neither null nor undefined. *)
Definition constructor_of (v : value) : option constructor_value :=
  match v with
  | VUndefined | VNull => None
  | VBool _ => Some (Native CBoolean)
  | VNum _ => Some (Native CNumber)
  | VStr _ => Some (Native CString)
  | VSym _ => Some (Native CSymbol)
  | VFun _ _ => Some (Native CFunction)
  | VArr _ _ => Some (Native CArray)
  | VObj _ props =>
      match own props "constructor" with
      | Some x => Some (Held x)
      | None => Some (Native CObject)
      end
  | VInst _ c _ => Some (Native c)
  end.

(** [a === b] on two such reads. A function that a value holds is not one
    of the named constructors. *)
Definition same_constructor (a b : constructor_value) : bool :=
  match a, b with
  | Native c, Native c' => bool_decide (c = c')
  | Held x, Held y => strict_eq x y
  | _, _ => false
  end.

(** [v instanceof c] *)
Definition instanceof (v : value) (c : ctor) : bool :=
  match v with
  | VFun _ _ => bool_decide (c = CFunction) || bool_decide (c = CObject)
  | VArr _ _ => bool_decide (c = CArray) || bool_decide (c = CObject)
  | VObj _ _ => bool_decide (c = CObject)
  | VInst _ c0 supers =>
      bool_decide (c ∈ c0 :: supers) || bool_decide (c = CObject)
  | _ => false
  end.

(** Structural comparison that ignores addresses ([toEqual] of the tests). *)
Fixpoint deep_equal (a b : value) : bool :=
  match a, b with
  | VUndefined, VUndefined => true
  | VNull, VNull => true
  | VBool x, VBool y => bool_decide (x = y)
  | VNum m, VNum n => bool_decide (m = n)
  | VStr s, VStr t => bool_decide (s = t)
  | VSym i, VSym j => bool_decide (i = j)
  | VFun l _, VFun l' _ => bool_decide (l = l')
  | VArr _ xs, VArr _ ys =>
      (fix go (l1 l2 : list value) : bool :=
         match l1, l2 with
         | [], [] => true
         | x :: l1', y :: l2' => deep_equal x y && go l1' l2'
         | _, _ => false
         end) xs ys
  | VObj _ ps, VObj _ qs =>
      (fix go (l1 l2 : list (string * value)) : bool :=
         match l1, l2 with
         | [], [] => true
         | (k, x) :: l1', (k', y) :: l2' =>
             bool_decide (k = k') && deep_equal x y && go l1' l2'
         | _, _ => false
         end) ps qs
  | VInst l _ _, VInst l' _ _ => bool_decide (l = l')
  | _, _ => false
  end.

End Js.

(** ** Exceptions, the diagnostic sink and the monad of effects *)

(** [Outside v]: the run reaches a point the embedding does not follow,
    the call of the function [v] that a value holds or the use of [v] as a
    type; it says nothing of what the code does from there. *)
Inductive exn :=
| TypeError (msg : string)
| UserException (v : value)
| Outside (v : value).

Inductive outcome (A : Type) :=
| Ok (a : A)
| Throw (e : exn).
Arguments Ok {A} a.
Arguments Throw {A} e.

(** The module variable `warn` holds either the function installed when the
    module is loaded ([Original]: the development build with a console and
    [Vue.config.silent === false], which prints every message) or one of
    the buffering closures made by [validateType]; the closure made [i]-th
    pushes onto the array [warnLogs !! i]. *)
Inductive sink :=
| Original
| Buffer (i : nat).

#[global] Instance sink_eq_dec : EqDecision sink.
Proof. solve_decision. Defined.

Record state := State {
  warn_binding : sink;
  console : list string;
  warnLogs : list (list string) }.

(** State passing with exceptions; [M] threads the module state of
    [src/utils.js]. *)
Definition ST (S A : Type) : Type := S -> outcome A * S.

Definition ret {S A} (a : A) : ST S A := fun st => (Ok a, st).

Definition bind {S A B} (m : ST S A) (k : A -> ST S B) : ST S B :=
  fun st =>
    match m st with
    | (Ok a, st') => k a st'
    | (Throw e, st') => (Throw e, st')
    end.

Definition throw {S A} (e : exn) : ST S A := fun st => (Throw e, st).

Abbreviation M := (ST state).

Notation "x <- m ;; k" := (bind m (fun x => k))
  (at level 62, m at next level, right associativity).
Notation "m ;;; k" := (bind m (fun _ => k))
  (at level 62, right associativity).

(** The state of the module once loaded: nothing printed, no buffer made. *)
Definition init : state := State Original [] [].

Definition dq : string := String (Ascii.ascii_of_nat 34) EmptyString.
Definition nl : string := String (Ascii.ascii_of_nat 10) EmptyString.

(** A step of the value layer inside the monad. *)
Definition attempted {A} (m : Js.attempt A) : M A :=
  match m with
  | Js.Got a => ret a
  | Js.Raises msg => throw (TypeError msg)
  | Js.Outside v => throw (Outside v)
  end.

(** [`${v}`] inside the monad. *)
Definition template (v : value) : M string := attempted (Js.to_string v).

(** A call [warn(msg)] through the current binding. *)
Definition warn (msg : string) : M unit :=
  fun st =>
    match warn_binding st with
    | Original =>
        (Ok tt, State (warn_binding st)
                  (console st ++ ["[VueTypes warn]: " +:+ msg]) (warnLogs st))
    | Buffer i =>
        (Ok tt, State (warn_binding st) (console st)
                  (alter (fun log => log ++ [msg]) i (warnLogs st)))
    end.

(** [const oldWarn = warn] *)
Definition read_warn : M sink := fun st => (Ok (warn_binding st), st).

(** [warn = w] *)
Definition assign_warn (w : sink) : M unit :=
  fun st => (Ok tt, State w (console st) (warnLogs st)).

(** [const warnLog = []; warn = (msg) => { warnLog.push(msg) }] *)
Definition install_buffer : M nat :=
  fun st =>
    let i := length (warnLogs st) in
    (Ok i, State (Buffer i) (console st) (warnLogs st ++ [[]])).

Definition read_log (i : nat) : M (list string) :=
  fun st => (Ok (default [] (warnLogs st !! i)), st).

(** [warnLog.length = 0] *)
Definition clear_log (i : nat) : M unit :=
  fun st =>
    (Ok tt, State (warn_binding st) (console st) (<[i := []]> (warnLogs st))).

(** [arr.some(f)] with an effectful callback. *)
Fixpoint some_M {A} (f : A -> M bool) (l : list A) : M bool :=
  match l with
  | [] => ret false
  | x :: l' => b <- f x ;; if b then ret true else some_M f l'
  end.

(** [arr.every(f)] with an effectful callback. *)
Fixpoint every_M {A} (f : A -> M bool) (l : list A) : M bool :=
  match l with
  | [] => ret true
  | x :: l' => b <- f x ;; if b then every_M f l' else ret false
  end.

(** ** Descriptors *)

(** What `default` can hold after [def]: the value itself, or one of the two
    copying closures. *)
Inductive default_field :=
| DValue (v : value)
| DArrayCopy (def : value)
| DObjectCopy (def : value).

(** The data fields a bound function can read from its receiver. *)
Record this_ctx := ThisCtx {
  this_name : option string;
  this_required : option bool;
  this_default : option default_field;
  this_isLoose : option bool }.

Definition validator_fn : Type := this_ctx -> list value -> M bool.

(** Which `validate` method [toType] attached, if any. *)
Inductive validate_method := NoValidate | ValidateSetter | ValidateStub.

(** A plain object read as a prop type. [None] in a field means the object
    has no such own property (for [validator]: or it is not a function). *)
Record descriptor_of (T : Type) := Descriptor {
  _vueTypes_name : option string;
  type_ : option T;
  required : option bool;
  default_ : option default_field;
  validator : option validator_fn;
  validate_ : validate_method;
  _vueTypes_isLoose : option bool }.
Arguments Descriptor {T}.
Arguments _vueTypes_name {T}.
Arguments type_ {T}.
Arguments required {T}.
Arguments default_ {T}.
Arguments validator {T}.
Arguments validate_ {T}.
Arguments _vueTypes_isLoose {T}.

(** A boolean, a number, a string or a class instance where a type is
    expected: a value that is neither callable nor read as a union or as a
    descriptor. *)
Inductive scalar :=
| SBool (b : bool)
| SNum (n : number)
| SStr (s : string)
| SInst (l : loc) (c : ctor) (supers : list ctor).

#[global] Instance scalar_eq_dec : EqDecision scalar.
Proof. solve_decision. Defined.

Definition scalar_value (x : scalar) : value :=
  match x with
  | SBool b => VBool b
  | SNum n => VNum n
  | SStr s => VStr s
  | SInst l c supers => VInst l c supers
  end.

(** [x.toString()], which is also [`${x}`]. *)
Definition scalar_text (x : scalar) : string :=
  match x with
  | SBool true => "true"
  | SBool false => "false"
  | SNum n => Js.number_to_string n
  | SStr s => s
  | SInst _ _ _ => "[object Object]"
  end.

(** Values in `type` position: null, undefined, a constructor function, an
    array, a plain object read as a descriptor, or a [scalar]. *)
Inductive tyval :=
| TNull
| TUndefined
| TCtor (c : ctor)
| TArray (ts : list tyval)
| TPlain (d : descriptor_of tyval)
| TScalar (x : scalar).

Abbreviation descriptor := (descriptor_of tyval).

Definition ctx_of (d : descriptor) : this_ctx :=
  ThisCtx (_vueTypes_name d) (required d) (default_ d) (_vueTypes_isLoose d).

(** The object literal [{ type }]. *)
Definition wrap (type : tyval) : descriptor :=
  Descriptor None (Some type) None None None NoValidate None.

Definition set_type (t : option tyval) (d : descriptor) : descriptor :=
  Descriptor (_vueTypes_name d) t (required d) (default_ d) (validator d)
    (validate_ d) (_vueTypes_isLoose d).
Definition set_required (r : option bool) (d : descriptor) : descriptor :=
  Descriptor (_vueTypes_name d) (type_ d) r (default_ d) (validator d)
    (validate_ d) (_vueTypes_isLoose d).
Definition set_default (v : option default_field) (d : descriptor) : descriptor :=
  Descriptor (_vueTypes_name d) (type_ d) (required d) v (validator d)
    (validate_ d) (_vueTypes_isLoose d).
Definition set_validator (f : option validator_fn) (d : descriptor) : descriptor :=
  Descriptor (_vueTypes_name d) (type_ d) (required d) (default_ d) f
    (validate_ d) (_vueTypes_isLoose d).
Definition set_isLoose (b : option bool) (d : descriptor) : descriptor :=
  Descriptor (_vueTypes_name d) (type_ d) (required d) (default_ d)
    (validator d) (validate_ d) b.

(** ** src/utils.js *)

Definition ctor_name (c : ctor) : option string :=
  match c with
  | CString => Some "String"
  | CNumber => Some "Number"
  | CBoolean => Some "Boolean"
  | CFunction => Some "Function"
  | CArray => Some "Array"
  | CObject => Some "Object"
  | CSymbol => Some "Symbol"
  | CUser _ fname => fname
  end.

(** [t.toString().match(FN_MATCH_REGEXP)], first group. The text of a
    constructor is its source, that of an array starts with the text of its
    first element and goes on with a comma, that of a plain object is
    [[object Object]]. *)
Fixpoint function_name (t : tyval) : option string :=
  match t with
  | TCtor c => ctor_name c
  | TArray (t' :: _) => function_name t'
  | TScalar x => Js.fn_match (scalar_text x)
  | _ => None
  end.

(** [!!t] *)
Definition type_truthy (t : tyval) : bool :=
  match t with
  | TNull | TUndefined => false
  | TScalar x => Js.truthy (scalar_value x)
  | _ => true
  end.

(** [getType(fn)]. Called on a falsy scalar it returns the scalar, which
    the callers only print: its text is given. *)
Definition getType (fn : tyval) : option string :=
  match fn with
  | TNull | TUndefined => None
  | TPlain d =>
      match type_ d with
      | Some t => if type_truthy t then function_name t else None
      | None => None
      end
  | TScalar x =>
      if Js.truthy (scalar_value x) then function_name fn
      else Some (scalar_text x)
  | _ => function_name fn
  end.

(** [getNativeType(value)]: the name matched in the text of
    [value.constructor], which for a key [constructor] of the value's own
    is whatever that key holds. *)
Definition getNativeType (value : value) : Js.attempt (option string) :=
  match Js.constructor_of value with
  | None => Js.Got None
  | Some (Js.Native c) => Js.Got (ctor_name c)
  | Some (Js.Held x) =>
      Js.and_then (Js.method_toString x) (fun s => Js.Got (Js.fn_match s))
  end.

Definition isArray (value : value) : bool :=
  match value with VArr _ _ => true | _ => false end.

(** The `is-plain-object` package: an object whose class is Object, whose
    [constructor] is a function, and whose constructor's prototype is such
    an object with [isPrototypeOf] among its own properties. An object
    literal has these as long as no key of its own shadows [constructor]:
    what such a key holds is no function, or a function whose prototype
    lacks [isPrototypeOf]. *)
Definition isPlainObject (value : value) : bool :=
  match value with
  | VObj _ props =>
      match Js.own props "constructor" with
      | None => true
      | Some _ => false
      end
  | _ => false
  end.

Definition isFunction (value : value) : bool :=
  match value with VFun _ _ => true | _ => false end.

(** [Number.isInteger], or [isFinite(value) && Math.floor(value) === value]
    on a number. *)
Definition isInteger (value : value) : bool :=
  match value with VNum (Int _) => true | _ => false end.

(** What [validateType] returns. *)
Inductive vresult :=
| RBool (b : bool)
| RMsg (msg : string).

Definition is_true (r : vresult) : bool :=
  match r with RBool true => true | _ => false end.

Definition name_truthy (n : option string) : bool :=
  match n with
  | Some s => negb (bool_decide (s = EmptyString))
  | None => false
  end.

Definition show_name (n : option string) : string :=
  match n with Some s => s | None => "undefined" end.

Definition show_expected (e : option string) : string :=
  match e with Some s => s | None => "null" end.

Section validateType_body.

(** The recursive call. *)
Variable validateType : tyval -> value -> bool -> M vresult.

(** Lines 213-235: [type] is [typeToCheck.type], neither null nor
    undefined. Gives [valid] and [expectedType]. *)
Definition check_type (typeToCheck : descriptor) (type : tyval)
    (value : value) : M (bool * option string) :=
  match type with
  | TArray ts =>
      valid <- some_M (fun type =>
                 r <- validateType type value true ;; ret (is_true r)) ts ;;
      ret (valid,
           Some (String.concat " or "
                   (map (fun type => default EmptyString (getType type)) ts)))
  | _ =>
      let expectedType := getType (TPlain typeToCheck) in
      if bool_decide (expectedType = Some "Array") then
        ret (isArray value, expectedType)
      else if bool_decide (expectedType = Some "Object") then
        ret (isPlainObject value, expectedType)
      else if bool_decide (expectedType = Some "String")
           || bool_decide (expectedType = Some "Number")
           || bool_decide (expectedType = Some "Boolean")
           || bool_decide (expectedType = Some "Function") then
        native <- attempted (getNativeType value) ;;
        ret (bool_decide (native = expectedType), expectedType)
      else
        match type with
        | TCtor c => ret (Js.instanceof value c, expectedType)
        | TScalar (SBool _) | TScalar (SNum _) | TScalar (SStr _) =>
            throw (TypeError "Right-hand side of 'instanceof' is not an object")
        | _ =>
            throw (TypeError "Right-hand side of 'instanceof' is not callable")
        end
  end.

(** Lines 204-236. [None] is the early [return valid] of line 211,
    otherwise [valid] and [expectedType] as they stand after the block. *)
Definition type_stage (typeToCheck : descriptor) (value : value)
    : M (option (bool * option string)) :=
  match type_ typeToCheck with
  | None | Some TNull => ret (Some (true, @None string))
  | Some TUndefined =>
      throw (TypeError
        "[VueTypes error]: Setting type to undefined is not allowed.")
  | Some type =>
      if negb (default false (required typeToCheck))
         && Js.is_undefined value
      then ret None
      else r <- check_type typeToCheck type value ;; ret (Some r)
  end.

(** Lines 238-245, [valid] being false. *)
Definition type_failure (typeToCheck : descriptor) (value : value)
    (silent : bool) (expectedType : option string) : M vresult :=
  let namePrefix :=
    if name_truthy (_vueTypes_name typeToCheck)
    then show_name (_vueTypes_name typeToCheck) +:+ " - "
    else EmptyString in
  v <- template value ;;
  let msg := namePrefix +:+ "value " +:+ dq +:+ v +:+ dq
             +:+ " should be of type " +:+ dq
             +:+ show_expected expectedType +:+ dq in
  if silent then ret (RMsg msg)
  else warn msg ;;; ret (RBool false).

(** Lines 247-270. *)
Definition validator_stage (typeToCheck : descriptor) (value : value)
    (silent : bool) : M vresult :=
  match validator typeToCheck with
  | Some f =>
      oldWarn <- read_warn ;;
      warnLog <- install_buffer ;;
      valid <- f (ctx_of typeToCheck) [value] ;;
      assign_warn oldWarn ;;;
      if valid then ret (RBool true)
      else
        log <- read_log warnLog ;;
        let msg :=
          match log with
          | [] => EmptyString
          | _ :: _ => "* " +:+ String.concat (nl +:+ " * ") log
          end in
        clear_log warnLog ;;;
        if silent then ret (RMsg msg)
        else
          (if bool_decide (msg = EmptyString) then ret tt else warn msg) ;;;
          ret (RBool false)
  | None => ret (RBool true)
  end.

Definition validateType_body (typeToCheck : descriptor) (value : value)
    (silent : bool) : M vresult :=
  checked <- type_stage typeToCheck value ;;
  match checked with
  | None => ret (RBool true)
  | Some (false, expectedType) =>
      type_failure typeToCheck value silent expectedType
  | Some (true, _) => validator_stage typeToCheck value silent
  end.

End validateType_body.

(** [validateType(type, value, silent)]: a plain object is read as a
    descriptor, anything else is wrapped as [{ type }]. *)
Fixpoint validateType (type : tyval) (value : value) (silent : bool)
    {struct type} : M vresult :=
  match type with
  | TPlain typeToCheck => validateType_body validateType typeToCheck value silent
  | _ => validateType_body validateType (wrap type) value silent
  end.

(** [this.default] is truthy. *)
Definition default_truthy (d : option default_field) : bool :=
  match d with
  | None => false
  | Some (DValue v) => Js.truthy v
  | Some (DArrayCopy _) | Some (DObjectCopy _) => true
  end.

Definition result_truthy (r : vresult) : bool :=
  match r with
  | RBool b => b
  | RMsg msg => negb (bool_decide (msg = EmptyString))
  end.

(** The method [def] attached by [withDefault]; [this] is mutated and
    returned, here the updated descriptor is returned. *)
Definition def (this : descriptor) (def : value) : M descriptor :=
  if Js.is_undefined def && negb (default_truthy (default_ this)) then ret this
  else
    valid <- (if isFunction def then ret true
              else r <- validateType (TPlain this) def false ;;
                   ret (result_truthy r)) ;;
    if negb valid then
      s <- template def ;;
      warn (show_name (_vueTypes_name this) +:+ " - invalid default value: "
            +:+ dq +:+ s +:+ dq) ;;;
      ret this
    else if isArray def then ret (set_default (Some (DArrayCopy def)) this)
    else if isPlainObject def then ret (set_default (Some (DObjectCopy def)) this)
    else ret (set_default (Some (DValue def)) this).

(** Calling the closures stored by [def]: [() => [...def]] and
    [() => Object.assign({}, def)] allocate a new object at the next free
    address. Other stored values are not closures of this module. *)
Definition call_default (f : default_field) (next : loc) : option (value * loc) :=
  match f with
  | DArrayCopy (VArr _ xs) => Some (VArr next xs, S next)
  | DObjectCopy (VObj _ props) => Some (VObj next props, S next)
  | _ => None
  end.

(** The address of an object value. *)
Definition address (v : value) : option loc :=
  match v with
  | VFun l _ | VArr l _ | VObj l _ | VInst l _ _ => Some l
  | _ => None
  end.

(** The getter [isRequired] attached by [withRequired]. *)
Definition isRequired (this : descriptor) : descriptor :=
  set_required (Some true) this.

(** The method [validate]: the setter of [withValidate], or the stub of
    [toType]; an object not made by [toType] has none. *)
Definition validate (this : descriptor) (fn : validator_fn) : M descriptor :=
  match validate_ this with
  | ValidateSetter => ret (set_validator (Some fn) this)
  | ValidateStub =>
      warn (show_name (_vueTypes_name this) +:+ " - " +:+ dq +:+ "validate"
            +:+ dq +:+ " method not supported on this type") ;;;
      ret this
  | NoValidate => throw (TypeError "validate is not a function")
  end.

(** [toType(name, obj, validateFn)], for an object literal [obj] that has
    not been through [toType] before. Binding the validator to [obj] is the
    convention that a validator is called with [ctx_of] its owner. *)
Definition toType (name : string) (obj : descriptor) (validateFn : bool)
    : descriptor :=
  Descriptor (Some name) (type_ obj) (required obj) (default_ obj)
    (validator obj) (if validateFn then ValidateSetter else ValidateStub)
    (_vueTypes_isLoose obj).

(** An object literal with the given `type` and `validator` properties. *)
Definition literal (type : option tyval) (validator : option validator_fn)
    : descriptor :=
  Descriptor None type None None validator NoValidate None.

(** The first argument of a call. *)
Definition arg0 (args : list value) : value := default VUndefined (head args).

(** ** src/index.js *)

Module VueTypes.

(** [VueTypes.any] *)
Definition any : descriptor := toType "any" (literal (Some TNull) None) true.

(** [VueTypes.integer], before [.def(VueTypes.sensibleDefaults.integer)]. *)
Definition integer_base : descriptor :=
  toType "integer"
    (literal (Some (TCtor CNumber))
       (Some (fun _ args => ret (isInteger (arg0 args))))) false.

(** [VueTypes.integer]; [sensible] is [VueTypes.sensibleDefaults.integer],
    the entry of the table kept by the module [./sensibles]. *)
Definition integer (sensible : value) : M descriptor :=
  def integer_base sensible.

(** [VueTypes.symbol] *)
Definition symbol : descriptor :=
  toType "symbol"
    (literal (Some TNull)
       (Some (fun _ args =>
                ret (match arg0 args with VSym _ => true | _ => false end))))
    true.

(** A function passed to [custom]: its [name] and what a call does. *)
Record predicate := Predicate {
  pred_name : string;
  pred_call : list value -> M bool }.

(** [custom(validatorFn, warnMsg)]; [None] is an argument that is not a
    function. *)
Definition custom (validatorFn : option predicate) (warnMsg : string)
    : outcome descriptor :=
  match validatorFn with
  | None =>
      Throw (TypeError
               "[VueTypes error]: You must provide a function as argument")
  | Some fn =>
      Ok (toType
            (if bool_decide (pred_name fn = EmptyString)
             then "<<anonymous function>>" else pred_name fn)
            (literal None
               (Some (fun this args =>
                  valid <- pred_call fn [arg0 args] ;;
                  (if valid then ret tt
                   else warn (show_name (this_name this) +:+ " - "
                              +:+ warnMsg)) ;;;
                  ret valid)))
            false)
  end.

(** The [reduce] of [oneOf]: what [v.constructor] gives for the members
    that are neither null nor undefined, first occurrences only. *)
Definition allowedTypes (arr : list value) : list Js.constructor_value :=
  foldl (fun ret v =>
           match Js.constructor_of v with
           | Some c =>
               if existsb (Js.same_constructor c) ret then ret else ret ++ [c]
           | None => ret
           end) [] arr.

(** A member of [allowedTypes] as the type it is read as: a constructor,
    also one that a value holds; null, undefined and the scalars as they
    are. A symbol, an array or an object held under [constructor] has no
    place among the types of the embedding. *)
Definition as_type (c : Js.constructor_value) : Js.attempt tyval :=
  match c with
  | Js.Native c => Js.Got (TCtor c)
  | Js.Held VUndefined => Js.Got TUndefined
  | Js.Held VNull => Js.Got TNull
  | Js.Held (VFun l src) => Js.Got (TCtor (CUser l (Js.fn_match src)))
  | Js.Held (VBool b) => Js.Got (TScalar (SBool b))
  | Js.Held (VNum n) => Js.Got (TScalar (SNum n))
  | Js.Held (VStr s) => Js.Got (TScalar (SStr s))
  | Js.Held (VInst l c supers) => Js.Got (TScalar (SInst l c supers))
  | Js.Held x => Js.Outside x
  end.

Fixpoint as_types (cs : list Js.constructor_value) : Js.attempt (list tyval) :=
  match cs with
  | [] => Js.Got []
  | c :: cs' =>
      Js.and_then (as_type c) (fun t =>
      Js.and_then (as_types cs') (fun ts => Js.Got (t :: ts)))
  end.

(** [oneOf(arr)] *)
Definition oneOf (arr : value) : outcome descriptor :=
  match arr with
  | VArr _ arr =>
      match Js.array_join (dq +:+ ", " +:+ dq) arr with
      | Js.Raises msg => Throw (TypeError msg)
      | Js.Outside f => Throw (Outside f)
      | Js.Got joined =>
          let msg := "oneOf - value should be one of " +:+ dq +:+ joined
                     +:+ dq in
          match as_types (allowedTypes arr) with
          | Js.Raises msg => Throw (TypeError msg)
          | Js.Outside x => Throw (Outside x)
          | Js.Got allowedTypes =>
              Ok (toType "oneOf"
                    (literal
                       (Some (if bool_decide (0 < length allowedTypes)
                              then TArray allowedTypes
                              else TNull))
                       (Some (fun _ args =>
                          let valid := Js.includes_strict arr (arg0 args) in
                          (if valid then ret tt else warn msg) ;;;
                          ret valid)))
                    false)
          end
      end
  | _ =>
      Throw (TypeError
               "[VueTypes error]: You must provide an array as argument")
  end.

(** [instanceOf(instanceConstructor)] *)
Definition instanceOf (instanceConstructor : tyval) : descriptor :=
  toType "instanceOf" (literal (Some instanceConstructor) None) false.

(** [a === b] on values in type position. Two arrays or two plain objects
    are taken to be distinct objects; an instance is the same object as
    another when it is equal to it, its address determining it. *)
Definition same_type (a b : tyval) : bool :=
  match a, b with
  | TNull, TNull => true
  | TUndefined, TUndefined => true
  | TCtor c, TCtor c' => bool_decide (c = c')
  | TScalar (SNum m), TScalar (SNum n) => Js.number_eq m n
  | TScalar x, TScalar y => bool_decide (x = y)
  | _, _ => false
  end.

(** [ret.concat(x)]: an array is spread, anything else is appended. *)
Definition concat (ret : list tyval) (x : tyval) : list tyval :=
  match x with
  | TArray ts => ret ++ ts
  | _ => ret ++ [x]
  end.

(** One step of the [reduce] of [oneOfType], on the pair
    [(hasCustomValidators, ret)]. *)
Definition nativeChecks_step (acc : bool * list tyval) (type : tyval)
    : bool * list tyval :=
  let '(hasCustomValidators, ret) := acc in
  match type with
  | TPlain d =>
      if bool_decide (_vueTypes_name d = Some "oneOf") then
        (hasCustomValidators,
         match type_ d with
         | Some t => if type_truthy t then concat ret t else ret
         | None => ret
         end)
      else
        (hasCustomValidators || bool_decide (is_Some (validator d)),
         match type_ d with
         | None | Some TUndefined => ret
         | Some t => concat ret t
         end)
  | _ => (hasCustomValidators, ret ++ [type])
  end.

(** [nativeChecks.filter((t, i) => nativeChecks.indexOf(t) === i)] *)
Fixpoint remove_duplicates (seen l : list tyval) : list tyval :=
  match l with
  | [] => []
  | t :: l' =>
      if existsb (same_type t) seen
      then remove_duplicates seen l'
      else t :: remove_duplicates (seen ++ [t]) l'
  end.

(** [type._vueTypes_name === 'oneOf' ? type.type || null : type], for
    [type] neither null nor undefined. *)
Definition oneOfType_reads (type : tyval) : tyval :=
  match type with
  | TPlain d =>
      if bool_decide (_vueTypes_name d = Some "oneOf") then
        match type_ d with
        | Some t => if type_truthy t then t else TNull
        | None => TNull
        end
      else type
  | _ => type
  end.

(** The callback of [arr.some] in the validator of [oneOfType]. *)
Definition oneOfType_try (value : value) (type : tyval) : M bool :=
  match type with
  | TNull | TUndefined =>
      throw (TypeError "Cannot read properties of null or undefined")
  | _ =>
      let t := oneOfType_reads type in
      r <- validateType t value true ;; ret (is_true r)
  end.

(** [oneOfType(arr)] *)
Definition oneOfType (arr : tyval) : outcome descriptor :=
  match arr with
  | TArray arr =>
      let '(hasCustomValidators, nativeChecks) :=
        foldl nativeChecks_step (false, []) arr in
      let nativeChecks := remove_duplicates [] nativeChecks in
      if negb hasCustomValidators then
        Ok (toType "oneOfType" (literal (Some (TArray nativeChecks)) None)
              false)
      else
        Ok (toType "oneOfType"
              (literal (Some (TArray nativeChecks))
                 (Some (fun _ args =>
                    let value := arg0 args in
                    valid <- some_M (oneOfType_try value) arr ;;
                    (if valid then ret tt
                     else
                       s <- template value ;;
                       warn ("oneOfType - value " +:+ dq +:+ s +:+ dq
                             +:+ " does not match any of the passed-in validators.")) ;;;
                    ret valid)))
              false)
  | _ =>
      Throw (TypeError
               "[VueTypes error]: You must provide an array as argument")
  end.

(** [obj[key]] on an object given by its entries. *)
Fixpoint get {A} (obj : list (string * A)) (key : string) : option A :=
  match obj with
  | [] => None
  | (k, x) :: obj' => if bool_decide (k = key) then Some x else get obj' key
  end.

(** [arr.indexOf(key) === -1] on an array of strings. *)
Definition absent (arr : list string) (key : string) : bool :=
  negb (bool_decide (key ∈ arr)).

(** [obj[key] && obj[key].required === true] *)
Definition is_required_field (obj : list (string * tyval)) (key : string)
    : bool :=
  match get obj key with
  | Some (TPlain d) => bool_decide (required d = Some true)
  | _ => false
  end.

(** The callback of [valueKeys.every] in the validator of [shape];
    [value] is the object under validation, by its entries. *)
Definition shape_every (obj : list (string * tyval)) (this : this_ctx)
    (value : list (string * value)) (key : string) : M bool :=
  let keys := map fst obj in
  if absent keys key then
    if bool_decide (this_isLoose this = Some true) then ret true
    else
      warn ("shape - shape definition does not include a " +:+ dq
            +:+ key +:+ dq +:+ " property. Allowed keys: " +:+ dq
            +:+ String.concat (dq +:+ ", " +:+ dq) keys +:+ dq
            +:+ ".") ;;;
      ret false
  else
    let type := default TUndefined (get obj key) in
    valid <- validateType type (default VUndefined (get value key)) true ;;
    match valid with
    | RMsg msg =>
        warn ("shape - " +:+ dq +:+ key +:+ dq
              +:+ " property validation error:" +:+ nl +:+ " * "
              +:+ msg) ;;;
        ret false
    | RBool b => ret b
    end.

(** The validator made by [shape(obj)]. *)
Definition shape_validator (obj : list (string * tyval)) : validator_fn :=
  let keys := map fst obj in
  let requiredKeys := filter (fun key => is_required_field obj key) keys in
  fun this args =>
    match arg0 args with
    | VObj _ value =>
        if negb (isPlainObject (arg0 args)) then ret false else
        let valueKeys := map fst value in
        if negb (bool_decide (requiredKeys = []))
           && existsb (absent valueKeys) requiredKeys
        then
          let missing := filter (fun req => absent valueKeys req) requiredKeys in
          match missing with
          | [m] =>
              warn ("shape - required property " +:+ dq +:+ m +:+ dq
                    +:+ " is not defined.")
          | _ =>
              warn ("shape - required properties " +:+ dq
                    +:+ String.concat (dq +:+ ", " +:+ dq) missing +:+ dq
                    +:+ " are not defined.")
          end ;;;
          ret false
        else every_M (shape_every obj this value) valueKeys
    | _ => ret false
    end.

(** [shape(obj)], [obj] given by its entries in key order. *)
Definition shape (obj : list (string * tyval)) : descriptor :=
  set_isLoose (Some false)
    (toType "shape"
       (literal (Some (TCtor CObject)) (Some (shape_validator obj))) false).

(** The getter [loose] of a shape. *)
Definition loose (this : descriptor) : descriptor :=
  set_isLoose (Some true) this.

(** *** The registry: the own properties of the object [VueTypes] *)

(** What is stored under a name: a member of the object literal or of
    [setDefaults], or a property defined by [extend], either an accessor
    ([getter: true]) or a function. [opts] and [validate] are the
    variables the closure captured; [validator] is the [validator] read
    from [opts] in the second case. *)
Inductive member :=
| Builtin
| Getter (opts : descriptor) (validate : bool)
| Method (opts : descriptor) (validate : bool)
    (validator : option validator_fn).

(** The argument of [extend] after destructuring:
    [{ name, validate = false, getter = false, ...opts }]. *)
Record spec := Spec {
  name : string;
  validate_flag : bool;
  getter : bool;
  opts : descriptor }.

(** [extend] takes one such object or an array of arguments. *)
Inductive extend_arg :=
| One (props : spec)
| Many (props : list extend_arg).

Definition stubTrue : validator_fn := fun _ _ => ret true.

(** The function assigned to [opts.validator] when the base type has a
    validator: [type.validator.apply(type, args) &&
    validator.apply(this, args)]. *)
Definition both (type : descriptor) (type_validator validator : validator_fn)
    : validator_fn :=
  fun this args =>
    ok <- type_validator (ctx_of type) args ;;
    if ok then validator this args else ret false.

(** The loop over [['type', 'required', 'default']] after
    [delete opts.type]. *)
Definition inherit (type opts : descriptor) : descriptor :=
  let opts := set_type None opts in
  let opts := match type_ type with
              | None | Some TUndefined => opts
              | Some t => set_type (Some t) opts
              end in
  let opts := match required type with
              | None => opts
              | Some r => set_required (Some r) opts
              end in
  match default_ type with
  | None | Some (DValue VUndefined) => opts
  | Some v => set_default (Some v) opts
  end.

(** [extend(props)] for one object, as a transition of the registry. *)
Definition extend_one (props : spec) : ST (gmap string member) unit :=
  fun registry =>
    if bool_decide (is_Some (registry !! name props)) then
      (Throw (TypeError ("[VueTypes error]: Type " +:+ dq +:+ name props
                         +:+ dq +:+ " already defined")), registry)
    else
      let validator_ := default stubTrue (validator (opts props)) in
      let '(opts, validate) :=
        match type_ (opts props) with
        | Some (TPlain type) =>
            if name_truthy (_vueTypes_name type) then
              let opts := inherit type (opts props) in
              (match validator type with
               | Some type_validator =>
                   set_validator
                     (Some (both type type_validator validator_)) opts
               | None => opts
               end, false)
            else (opts props, validate_flag props)
        | _ => (opts props, validate_flag props)
        end in
      let descriptor :=
        if getter props then Getter opts validate
        else Method opts validate (validator opts) in
      (Ok tt, <[name props := descriptor]> registry).

(** [extend(props)] *)
Fixpoint extend (props : extend_arg) : ST (gmap string member) unit :=
  match props with
  | One p => extend_one p
  | Many ps =>
      (fix forEach (l : list extend_arg) : ST (gmap string member) unit :=
         match l with
         | [] => ret tt
         | p :: l' => extend p ;;; forEach l'
         end) ps
  end.

(** [validator.bind(ret, ...args)] *)
Definition bind_args (validator : validator_fn) (args : list value)
    : validator_fn :=
  fun this rest => validator this (args ++ rest).

(** Reading the property [name] of [VueTypes] and, for a function,
    calling it with [args]. *)
Definition instantiate (name : string) (m : member) (args : list value)
    : option descriptor :=
  match m with
  | Builtin => None
  | Getter opts validate => Some (toType name opts validate)
  | Method opts validate validator =>
      let ret := toType name opts validate in
      Some (match validator with
            | Some validator =>
                set_validator (Some (bind_args validator args)) ret
            | None => ret
            end)
  end.

(** Modelled from the spec: the name of the accessor that [setDefaults], of
    the module [./sensibles], defines on [VueTypes]; it is the global switch
    of the sensible defaults. *)
Definition sensibleDefaults_name : string := "sensibleDefaults".

(** The names the object [VueTypes] owns once the module is loaded: those
    of the object literal, the one [setDefaults] adds, and [utils]. *)
Definition initial : gmap string member :=
  list_to_map
    ((fun n => (n, Builtin)) <$>
     ["any"; "func"; "bool"; "string"; "number"; "array"; "object";
      "integer"; "symbol"; "extend"; "custom"; "oneOf"; "instanceOf";
      "oneOfType"; "arrayOf"; "objectOf"; "shape"; sensibleDefaults_name;
      "utils"]).

(** *** The remaining builders and [VueTypes.utils] *)

(** The callback of [every] in the validators of [arrayOf] and [objectOf]:
    [validateType(type, value)], loud, read as a condition. *)
Definition member_ok (type : tyval) (value : value) : M bool :=
  r <- validateType type value false ;; ret (result_truthy r).

(** [arrayOf(type)]. [values.every] exists on arrays only; functions kept
    in a property of a plain object cannot be called in this value
    universe, so every other value raises. *)
Definition arrayOf (type : tyval) : descriptor :=
  toType "arrayOf"
    (literal (Some (TCtor CArray))
       (Some (fun _ args =>
          match arg0 args with
          | VArr _ values =>
              valid <- every_M (member_ok type) values ;;
              (if valid then ret tt
               else warn ("arrayOf - value must be an array of " +:+ dq
                          +:+ show_expected (getType type) +:+ dq)) ;;;
              ret valid
          | VObj _ props =>
              match Js.own props "every" with
              | Some f =>
                  if Js.callable f then throw (Outside f)
                  else throw (TypeError "values.every is not a function")
              | None => throw (TypeError "values.every is not a function")
              end
          | _ => throw (TypeError "values.every is not a function")
          end)))
    false.

(** [Object.keys(obj).map((key) => obj[key])]; [None] is the TypeError on
    null and undefined. A string has its characters, an array its elements,
    the other values of this universe no enumerable key of their own. *)
Definition own_values (obj : value) : option (list value) :=
  match obj with
  | VUndefined | VNull => None
  | VObj _ props =>
      Some (map (fun key => default VUndefined (get props key)) (map fst props))
  | VArr _ xs => Some xs
  | VStr s =>
      Some (map (fun c => VStr (String c EmptyString)) (String.list_ascii_of_string s))
  | _ => Some []
  end.

(** [objectOf(type)] *)
Definition objectOf (type : tyval) : descriptor :=
  toType "objectOf"
    (literal (Some (TCtor CObject))
       (Some (fun _ args =>
          match own_values (arg0 args) with
          | Some values =>
              valid <- every_M (member_ok type) values ;;
              (if valid then ret tt
               else warn ("objectOf - value must be an object of " +:+ dq
                          +:+ show_expected (getType type) +:+ dq)) ;;;
              ret valid
          | None =>
              throw (TypeError "Cannot convert undefined or null to object")
          end)))
    false.

(** The getters [func], [bool], [string], [number], [array] and [object]:
    the name given to [toType] and the constructor, by property name. *)
Definition primitives : list (string * (string * ctor)) :=
  [("func", ("function", CFunction)); ("bool", ("boolean", CBoolean));
   ("string", ("string", CString)); ("number", ("number", CNumber));
   ("array", ("array", CArray)); ("object", ("object", CObject))].

(** The body of each of them:
    [toType(name, { type }, true).def(VueTypes.sensibleDefaults[...])];
    [sensible] is the entry of the table kept by the module [./sensibles]. *)
Definition primitive (name : string) (type : ctor) (sensible : value)
    : M descriptor :=
  def (toType name (literal (Some (TCtor type)) None) true) sensible.

(** [VueTypes.utils.validate(value, type)] *)
Definition utils_validate (value : value) (type : tyval) : M bool :=
  r <- validateType type value true ;; ret (is_true r).

End VueTypes.

(** * Vocabulary of the properties *)

Import VueTypes.

Arguments validateType : simpl never.

(** The object [validateType] works on: a plain object as it is, anything
    else as [{ type }]. *)
Definition typeToCheck_of (type : tyval) : descriptor :=
  match type with
  | TPlain d => d
  | _ => wrap type
  end.

(** The state after a call [warn(msg)]. *)
Definition emit (msg : string) (st : state) : state := snd (warn msg st).

(** The state in which a validator runs when [validateType] is entered in
    state [st]. *)
Definition buffered (st : state) : state :=
  State (Buffer (length (warnLogs st))) (console st) (warnLogs st ++ [[]]).

(** [t === null || t === undefined] *)
Definition nullish (t : tyval) : bool :=
  match t with
  | TNull | TUndefined => true
  | _ => false
  end.

(** A descriptor has a native type: an own `type` that is neither null nor
    undefined. *)
Definition has_native_type (d : descriptor) : Prop :=
  exists t, type_ d = Some t /\ nullish t = false.

(** A descriptor is unconstrained: no own `type`, or the null marker. *)
Definition unconstrained (d : descriptor) : Prop :=
  type_ d = None \/ type_ d = Some TNull.

(** The six constructors whose check is by name. *)
Definition named_native (c : ctor) : Prop :=
  c = CString \/ c = CNumber \/ c = CBoolean \/ c = CFunction
  \/ c = CArray \/ c = CObject.

(** What [def] stores for an accepted value. *)
Definition stored (x : value) : default_field :=
  if isArray x then DArrayCopy x
  else if isPlainObject x then DObjectCopy x
  else DValue x.

(** The argument list the inherited validators receive: the arguments of
    the call of the registered function, if it is one, then those of the
    call of the validator. *)
Definition received (props : spec) (args rest : list value) : list value :=
  if getter props then rest else args ++ rest.

(** The constructors of a list, each at its first occurrence: the
    de-duplicated, order-preserving list the specification speaks of. *)
Fixpoint distinct_in_order (l : list ctor) : list ctor :=
  match l with
  | [] => []
  | c :: l' => c :: filter (fun c' => c' <> c) (distinct_in_order l')
  end.

(** What lines 219-234 do for a constructor [c] as the single type: the
    value of [valid], or the failure of [getNativeType]. *)
Definition native_check (c : ctor) (v : value) : Js.attempt bool :=
  if bool_decide (ctor_name c = Some "Array") then Js.Got (isArray v)
  else if bool_decide (ctor_name c = Some "Object") then
    Js.Got (isPlainObject v)
  else if bool_decide (ctor_name c = Some "String")
       || bool_decide (ctor_name c = Some "Number")
       || bool_decide (ctor_name c = Some "Boolean")
       || bool_decide (ctor_name c = Some "Function")
  then Js.and_then (getNativeType v)
         (fun native => Js.Got (bool_decide (native = ctor_name c)))
  else Js.Got (Js.instanceof v c).

(** The constructor a value has from its prototype chain, when no key of
    its own shadows it. *)
Definition builtin (v : value) : option ctor :=
  match Js.constructor_of v with
  | Some (Js.Native c) => Some c
  | _ => None
  end.

(** The value has no property [constructor] of its own. *)
Definition stock (v : value) : bool :=
  match Js.constructor_of v with
  | Some (Js.Held _) => false
  | _ => true
  end.

(** The read of the name of the constructor of [v] is followed to its end,
    a name or a TypeError: it calls no function that [v] holds. *)
Definition readable (v : value) : bool :=
  match getNativeType v with
  | Js.Outside _ => false
  | _ => true
  end.

(** [`${v}`] gives a string. *)
Definition converts (v : value) : Prop :=
  exists s, Js.to_string v = Js.Got s.

(** The check of [c] is made and accepts [v]. *)
Definition accepted_by (c : ctor) (v : value) : bool :=
  match native_check c v with
  | Js.Got valid => valid
  | _ => false
  end.

(** Every call returns true, each one starting in the state the previous
    one left. *)
Inductive all_pass {A} (f : A -> M bool) : list A -> state -> state -> Prop :=
| all_pass_nil st : all_pass f [] st st
| all_pass_cons x l st st1 st' :
    f x st = (Ok true, st1) -> all_pass f l st1 st' ->
    all_pass f (x :: l) st st'.

(** The field [key] of [obj] is declared with [required === true] and the
    value has no such key. *)
Definition required_absent (obj : list (string * tyval))
    (props : list (string * value)) (key : string) : Prop :=
  key ∈ map fst obj
  /\ (exists d, get obj key = Some (TPlain d) /\ required d = Some true)
  /\ key ∉ map fst props.

(** The warning for the missing required keys. *)
Definition missing_message (missing : list string) : string :=
  match missing with
  | [m] => "shape - required property " +:+ dq +:+ m +:+ dq +:+ " is not defined."
  | _ => "shape - required properties " +:+ dq
         +:+ String.concat (dq +:+ ", " +:+ dq) missing +:+ dq
         +:+ " are not defined."
  end.

(** The keys of the value are accepted one after the other: a key that
    [obj] does not declare when the shape is loose, a declared key when
    its value validates, silently, against the declared type. *)
Inductive shape_accepts (obj : list (string * tyval)) (this : this_ctx)
    (props : list (string * value)) : list string -> state -> state -> Prop :=
| accepts_done st : shape_accepts obj this props [] st st
| accepts_undeclared key keys st st' :
    key ∉ map fst obj -> this_isLoose this = Some true ->
    shape_accepts obj this props keys st st' ->
    shape_accepts obj this props (key :: keys) st st'
| accepts_declared key keys type st st1 st' :
    get obj key = Some type ->
    validateType type (default VUndefined (get props key)) true st
      = (Ok (RBool true), st1) ->
    shape_accepts obj this props keys st1 st' ->
    shape_accepts obj this props (key :: keys) st st'.

(** The calls return false one after the other until one returns true. *)
Inductive some_pass {A} (f : A -> M bool) : list A -> state -> state -> Prop :=
| some_pass_here x l st st' :
    f x st = (Ok true, st') -> some_pass f (x :: l) st st'
| some_pass_later x l st st1 st' :
    f x st = (Ok false, st1) -> some_pass f l st1 st' ->
    some_pass f (x :: l) st st'.



(** No step of the value layer fails on the value itself: it converts to
    a string and the name of its constructor is read. *)
Definition plain_reads (v : value) : bool :=
  match Js.to_string v, getNativeType v with
  | Js.Got _, Js.Got _ => true
  | _, _ => false
  end.




(** A validator that raises instead of returning false. *)
Definition expectString : predicate :=
  Predicate "expectString"
    (fun args =>
       match arg0 args with
       | VStr _ => ret true
       | _ => throw (TypeError "expected a string")
       end).

(** The native types: null, constructors, and arrays of native types. *)
Inductive native : tyval -> Prop :=
| native_null : native TNull
| native_ctor c : native (TCtor c)
| native_array ts : Forall native ts -> native (TArray ts).

(** The state once a validator has run in a buffer that held no message
    when it was dropped. *)
Definition after_buffer (st : state) : state :=
  State (warn_binding st) (console st) (warnLogs st ++ [[]]).

(** Booleans, numbers, strings, functions, arrays and plain objects. *)
Definition native_kind (v : value) : Prop :=
  match v with
  | VBool _ | VNum _ | VStr _ | VFun _ _ | VArr _ _ => True
  | VObj _ _ => isPlainObject v = true
  | _ => False
  end.

(** The constructor is one whose check goes by its name. *)
Definition checked_by_name (c : ctor) : Prop :=
  exists n, ctor_name c = Some n
            /\ n ∈ ["Array"; "Object"; "String"; "Number"; "Boolean"; "Function"].

(** The descriptors that the builders calling [toType] without its third
    argument return, and what [isRequired], [loose] and [def] make of
    them. *)
Inductive built : descriptor -> Prop :=
| built_custom fn warnMsg d : custom fn warnMsg = Ok d -> built d
| built_oneOf arr d : oneOf arr = Ok d -> built d
| built_oneOfType arr d : oneOfType arr = Ok d -> built d
| built_instanceOf c : built (instanceOf c)
| built_arrayOf type : built (arrayOf type)
| built_objectOf type : built (objectOf type)
| built_shape obj : built (shape obj)
| built_integer : built integer_base
| built_isRequired d : built d -> built (isRequired d)
| built_loose d : built d -> built (loose d)
| built_def d x st d' st' : built d -> def d x st = (Ok d', st') -> built d'.

(** What an element has to be for [arrayOf] and [objectOf] over a
    constructor: undefined, or accepted by the constructor. *)
Definition element_ok (c : ctor) (x : value) : bool :=
  Js.is_undefined x || accepted_by c x.

(** The state after `warn` was called with each of [lines] in turn. *)
Definition emit_all (lines : list string) (st : state) : state :=
  foldl (fun s line => emit line s) st lines.

(** The message of line 239 for a bare constructor [c] and a value whose
    text is [s]. *)
Definition mismatch (c : ctor) (s : string) : string :=
  "value " +:+ dq +:+ s +:+ dq +:+ " should be of type " +:+ dq
  +:+ show_expected (ctor_name c) +:+ dq.

(** The text of the diagnostic of a validator that called `warn` with
    [lines]. *)
Definition diagnostic (lines : list string) : string :=
  "* " +:+ String.concat (nl +:+ " * ") lines.

(** What the engine decides on the native types, as a function: null
    accepts everything, a constructor and a union accept undefined, a union
    accepts what one of its members accepts. *)
Fixpoint native_accepts (type : tyval) (v : value) : bool :=
  match type with
  | TNull => true
  | TCtor c => Js.is_undefined v || accepted_by c v
  | TArray ts =>
      Js.is_undefined v || existsb (fun t => native_accepts t v) ts
  | _ => false
  end.

(** * Properties *)

(** ** The value layer at sample inputs *)

Lemma number_to_string_samples :
  Js.number_to_string (Int 9007199254740992) = "9007199254740992"
  /\ Js.number_to_string (Int (2 ^ 64)) = "18446744073709552000"
  /\ Js.number_to_string (Int (10 ^ 21)) = "1e+21"
  /\ Js.number_to_string (Int (- 2 ^ 70)) = "-1.1805916207174113e+21"
  /\ Js.number_to_string (Frac "0.1") = "0.1".
Proof. repeat split; vm_compute; reflexivity. Qed.

Lemma own_keys_samples :
  isPlainObject (VObj 0 [("id", VNum (Int 1))]) = true
  /\ isPlainObject (VObj 0 [("constructor", VStr "x")]) = false
  /\ getNativeType (VObj 0 [("constructor", VNull)])
     = Js.Raises "Cannot read properties of null (reading 'toString')"
  /\ getNativeType
       (VObj 0 [("constructor", VFun 1 "function String() { [native code] }")])
     = Js.Got (Some "String")
  /\ Js.to_string (VObj 0 [("toString", VNum (Int 1))])
     = Js.Raises "Cannot convert object to primitive value"
  /\ Js.to_string (VObj 0 []) = Js.Got "[object Object]"
  /\ isInteger (VNum (Frac "0.1")) = false
  /\ isInteger (VNum (Infinity false)) = false.
Proof. repeat split; reflexivity. Qed.

(** ** Unfolding the engine *)

Lemma validateType_unfold type value silent :
  validateType type value silent
  = validateType_body validateType (typeToCheck_of type) value silent.
Proof. destruct type; reflexivity. Qed.

Lemma warn_run msg st : warn msg st = (Ok tt, emit msg st).
Proof. unfold emit, warn. destruct (warn_binding st); reflexivity. Qed.

Lemma emit_binding msg st : warn_binding (emit msg st) = warn_binding st.
Proof. unfold emit, warn. destruct (warn_binding st); reflexivity. Qed.

Lemma short_circuit d silent st :
  has_native_type d -> required d <> Some true ->
  validateType (TPlain d) VUndefined silent st = (Ok (RBool true), st).
Proof.
  intros (t & Ht & Htruthy) Hreq.
  rewrite validateType_unfold. unfold validateType_body, type_stage, bind; simpl.
  rewrite Ht.
  assert (negb (default false (required d)) = true) as ->.
  { destruct (required d) as [[]|]; simpl; congruence. }
  destruct t; simpl in *; try discriminate; reflexivity.
Qed.

(** With no native type the validator, if any, is what runs. *)
Lemma unconstrained_runs_validator d value silent st f :
  unconstrained d -> validator d = Some f ->
  forall b st', f (ctx_of d) [value] (buffered st) = (Ok b, st') ->
  exists r st'', validateType (TPlain d) value silent st = (Ok r, st'')
                 /\ is_true r = b.
Proof.
  intros Hty Hf b st' Hrun.
  rewrite validateType_unfold.
  unfold validateType_body, type_stage, validator_stage, bind; simpl.
  assert (match type_ d with
          | None | Some TNull => true | _ => false end = true) as Hskip.
  { destruct Hty as [-> | ->]; reflexivity. }
  destruct (type_ d) as [[]|]; try discriminate; simpl;
    rewrite Hf; simpl; unfold buffered in Hrun; rewrite Hrun;
    destruct b; simpl; eauto;
    destruct silent; simpl; eauto;
    match goal with
    | |- context [bool_decide ?P] => destruct (bool_decide P); simpl; eauto
    end;
    rewrite warn_run; simpl; eauto.
Qed.

Lemma unconstrained_no_validator d value silent st :
  unconstrained d -> validator d = None ->
  validateType (TPlain d) value silent st = (Ok (RBool true), st).
Proof.
  intros Hty Hf.
  rewrite validateType_unfold.
  unfold validateType_body, type_stage, validator_stage, bind; simpl.
  destruct Hty as [-> | ->]; simpl; rewrite Hf; reflexivity.
Qed.

(** ** Induction on values *)

Lemma value_nested_ind (P : value -> Prop) :
  P VUndefined -> P VNull -> (forall b, P (VBool b)) -> (forall n, P (VNum n)) ->
  (forall s, P (VStr s)) -> (forall i, P (VSym i)) ->
  (forall l src, P (VFun l src)) ->
  (forall l xs, Forall P xs -> P (VArr l xs)) ->
  (forall l props, Forall (fun kv => P (snd kv)) props -> P (VObj l props)) ->
  (forall l c supers, P (VInst l c supers)) ->
  forall v, P v.
Proof.
  intros Hu Hn Hb Hnum Hs Hsym Hf Ha Ho Hi.
  fix IH 1. intros [ | | b | n | s | i | l src | l xs | l props | l c supers ].
  - exact Hu.
  - exact Hn.
  - apply Hb.
  - apply Hnum.
  - apply Hs.
  - apply Hsym.
  - apply Hf.
  - apply Ha. induction xs as [|x xs IHxs]; constructor; [apply IH | exact IHxs].
  - apply Ho. induction props as [|[k x] props IHp]; constructor;
      [apply IH | exact IHp].
  - apply Hi.
Qed.

Lemma deep_equal_refl v : Js.deep_equal v v = true.
Proof.
  induction v as [ | | b | n | s | i | l src | l xs IH | l props IH | l c supers ]
    using value_nested_ind; simpl; try solve [reflexivity | by apply bool_decide_eq_true].
  - induction IH as [|x xs Hx _ IHxs]; [reflexivity|].
    rewrite Hx. exact IHxs.
  - induction IH as [|[k x] props Hx _ IHp]; [reflexivity|].
    simpl in Hx. rewrite Hx. rewrite bool_decide_eq_true_2 by reflexivity.
    exact IHp.
Qed.

(** A copy has the contents of the original and another address. *)
Lemma copy_is_fresh f x next l :
  (f = DArrayCopy x /\ isArray x = true)
  \/ (f = DObjectCopy x /\ isPlainObject x = true) ->
  address x = Some l -> l < next ->
  exists y, call_default f next = Some (y, S next)
            /\ address y = Some next
            /\ Js.deep_equal y x = true
            /\ Js.strict_eq y x = false.
Proof.
  intros [[-> Hx] | [-> Hx]] Hl Hlt; destruct x; try discriminate;
    simpl in Hl; injection Hl as ->;
    (eexists; split; [reflexivity|]; split; [reflexivity|]; split;
     [ apply (deep_equal_refl (VArr l _)) || apply (deep_equal_refl (VObj l _))
     | simpl; apply bool_decide_eq_false; lia ]).
Qed.

Lemma tyval_nested_ind (P : tyval -> Prop) :
  P TNull -> P TUndefined -> (forall c, P (TCtor c)) ->
  (forall ts, Forall P ts -> P (TArray ts)) ->
  (forall d, (forall t, type_ d = Some t -> P t) ->
             (forall ts, type_ d = Some (TArray ts) -> Forall P ts) ->
             P (TPlain d)) ->
  (forall x, P (TScalar x)) ->
  forall t, P t.
Proof.
  intros Hnull Hundef Hctor Harray Hplain Hscalar. fix IH 1.
  intros [ | |c|ts|d|x]; [| | | | |apply Hscalar].
  - exact Hnull.
  - exact Hundef.
  - apply Hctor.
  - apply Harray. induction ts as [|t ts IHts]; constructor;
      [apply IH | exact IHts].
  - destruct d as [n [t|] r df v vm il].
    + assert (forall ts, t = TArray ts -> Forall P ts) as Hts.
      { destruct t as [ | |c|ts|d'|x]; try (intros ? ?; discriminate).
        assert (Forall P ts) as Hall.
        { induction ts as [|t ts IHts]; [constructor|].
          constructor; [apply IH | exact IHts]. }
        by intros ts' [= <-]. }
      apply Hplain; simpl.
      * intros t' [= <-]. apply IH.
      * intros ts [= ->]. by apply Hts.
    + apply Hplain; simpl; intros ? [=].
Qed.

(** ** The result of a loud call is a boolean *)

Lemma validator_stage_loud d value st r st' :
  validator_stage d value false st = (Ok r, st') -> exists b, r = RBool b.
Proof.
  unfold validator_stage, bind.
  destruct (validator d) as [f|]; simpl; [|intros [= <- _]; eauto].
  destruct (f _ _ _) as [[[]|] s']; simpl; try discriminate.
  - intros [= <- _]; eauto.
  - destruct (bool_decide _); simpl; try rewrite warn_run; simpl;
      intros [= <- _]; eauto.
Qed.

Lemma type_failure_loud d value e st r st' :
  type_failure d value false e st = (Ok r, st') -> r = RBool false.
Proof.
  unfold type_failure, template, attempted, bind.
  destruct (Js.to_string value); simpl; try discriminate.
  rewrite warn_run; simpl. by intros [= <- _].
Qed.

Lemma loud_result_is_bool type value st r st' :
  validateType type value false st = (Ok r, st') -> exists b, r = RBool b.
Proof.
  rewrite validateType_unfold. unfold validateType_body, bind.
  destruct (type_stage _ _ _ st) as [[[[[] e]|]|] s]; simpl; try discriminate.
  - apply validator_stage_loud.
  - intros H%type_failure_loud; eauto.
  - intros [= <- _]; eauto.
Qed.

(** ** The check against one constructor *)

Lemma check_type_ctor d c v st :
  type_ d = Some (TCtor c) ->
  check_type validateType d (TCtor c) v st
  = (valid <- attempted (native_check c v) ;; ret (valid, ctor_name c)) st.
Proof.
  intros Hty. unfold check_type, getType, native_check. rewrite Hty. simpl.
  repeat (case_bool_decide; simpl; try reflexivity).
  all: unfold bind, attempted, Js.and_then;
    destruct (getNativeType v); reflexivity.
Qed.

(** Where the read of the constructor succeeds the check gives
    [accepted_by]. *)
Lemma native_check_got c v native :
  getNativeType v = Js.Got native ->
  native_check c v = Js.Got (accepted_by c v).
Proof.
  intros Hn. unfold accepted_by, native_check. rewrite Hn. simpl.
  repeat (case_bool_decide; simpl; try reflexivity).
Qed.

Lemma stock_reads v : stock v = true -> exists native, getNativeType v = Js.Got native.
Proof.
  unfold stock, getNativeType.
  destruct (Js.constructor_of v) as [[c|x]|]; try discriminate; by eexists.
Qed.

(** Where it fails no constructor accepts the value: the value is an
    object with a [constructor] of its own. *)
Lemma check_fails_rejects c v :
  (forall valid, native_check c v <> Js.Got valid) ->
  forall c', accepted_by c' v = false.
Proof.
  intros Hfail c'.
  destruct (getNativeType v) as [n|msg|f] eqn:Hn.
  { rewrite (native_check_got c v n Hn) in Hfail.
    by destruct (Hfail (accepted_by c v)). }
  all: unfold accepted_by, native_check; rewrite Hn;
    unfold getNativeType in Hn; destruct v; try discriminate; simpl in *;
    destruct (Js.own props "constructor") as [x|]; try discriminate;
    repeat (case_bool_decide; simpl; try reflexivity);
    subst; simpl in *; congruence.
Qed.

Lemma validate_ctor_silent c v st s :
  Js.is_undefined v = false -> Js.to_string v = Js.Got s ->
  validateType (TCtor c) v true st
  = (match native_check c v with
     | Js.Got true => Ok (RBool true)
     | Js.Got false => Ok (RMsg (mismatch c s))
     | Js.Raises msg => Throw (TypeError msg)
     | Js.Outside f => Throw (Outside f)
     end, st).
Proof.
  intros Hv Hs. rewrite validateType_unfold.
  unfold validateType_body, type_stage, bind at 1.
  cbn [typeToCheck_of wrap type_ required default negb andb]. rewrite Hv.
  unfold bind at 1. rewrite (check_type_ctor (wrap (TCtor c)) c v st) by done.
  unfold bind, attempted.
  destruct (native_check c v) as [[]| |]; try reflexivity.
  unfold type_failure, template, attempted, bind. by rewrite Hs.
Qed.

(** The union of a list of constructors: the members are tried in turn,
    in the same state. *)
Lemma union_of_ctors cs v st s st' :
  Js.is_undefined v = false -> Js.to_string v = Js.Got s ->
  some_M (fun type => r <- validateType type v true ;; ret (is_true r))
    (map TCtor cs) st = (Ok true, st')
  <-> existsb (fun c => accepted_by c v) cs = true /\ st' = st.
Proof.
  intros Hv Hs. induction cs as [|c cs IH]; simpl.
  - unfold ret. split; [discriminate | by intros [? _]].
  - unfold bind at 1 2. rewrite (validate_ctor_silent c v st s Hv Hs).
    unfold accepted_by at 1.
    destruct (native_check c v) as [[]|msg|f] eqn:Hc; simpl.
    + unfold ret. split; [by intros [= <-] | by intros [_ ->]].
    + exact IH.
    + split; [discriminate|]. intros [Hex _].
      apply existsb_exists in Hex as (c' & _ & Hacc).
      rewrite (check_fails_rejects c v) in Hacc; [discriminate|].
      intros valid. by rewrite Hc.
    + split; [discriminate|]. intros [Hex _].
      apply existsb_exists in Hex as (c' & _ & Hacc).
      rewrite (check_fails_rejects c v) in Hacc; [discriminate|].
      intros valid. by rewrite Hc.
Qed.

(** The union leaves the state as it is, however it ends. *)
Lemma union_of_ctors_pure cs v s :
  Js.is_undefined v = false -> Js.to_string v = Js.Got s ->
  exists o, forall st,
    some_M (fun type => r <- validateType type v true ;; ret (is_true r))
      (map TCtor cs) st = (o, st).
Proof.
  intros Hv Hs. induction cs as [|c cs [o IH]]; simpl; [by eexists|].
  unfold bind at 1 2.
  destruct (native_check c v) as [[]|msg|f] eqn:Hc.
  - exists (Ok true). intros st.
    by rewrite (validate_ctor_silent c v st s Hv Hs), Hc.
  - exists o. intros st.
    rewrite (validate_ctor_silent c v st s Hv Hs), Hc. apply IH.
  - eexists. intros st.
    by rewrite (validate_ctor_silent c v st s Hv Hs), Hc.
  - eexists. intros st.
    by rewrite (validate_ctor_silent c v st s Hv Hs), Hc.
Qed.

Lemma type_failure_not_true d v silent e st st' :
  type_failure d v silent e st <> (Ok (RBool true), st').
Proof.
  unfold type_failure, template, attempted, bind.
  destruct (Js.to_string v); simpl; [|discriminate..].
  destruct silent; simpl; [discriminate|]. rewrite warn_run. discriminate.
Qed.

(** The validator stage returns true exactly when the validator does. *)
Lemma validator_stage_true d v silent st f :
  validator d = Some f ->
  (exists st', validator_stage d v silent st = (Ok (RBool true), st'))
  <-> (exists st', f (ctx_of d) [v] (buffered st) = (Ok true, st')).
Proof.
  intros Hf. unfold validator_stage, bind. rewrite Hf. simpl.
  fold (buffered st).
  destruct (f (ctx_of d) [v] (buffered st)) as [[[]|e] st1]; simpl.
  - split; eauto.
  - split; intros [st' H]; exfalso; [|discriminate].
    destruct silent; simpl in H; [discriminate|].
    destruct (bool_decide _); simpl in H; try rewrite warn_run in H;
      discriminate.
  - split; intros [st' H]; discriminate.
Qed.

Lemma unconstrained_passes d v silent st f :
  unconstrained d -> validator d = Some f ->
  (exists st', validateType (TPlain d) v silent st = (Ok (RBool true), st'))
  <-> (exists st', f (ctx_of d) [v] (buffered st) = (Ok true, st')).
Proof.
  intros Hty Hf. rewrite validateType_unfold.
  unfold validateType_body, type_stage, bind at 1. simpl.
  assert (match type_ d with
          | None | Some TNull => ret (Some (true, @None string))
          | Some TUndefined =>
              throw (TypeError
                "[VueTypes error]: Setting type to undefined is not allowed.")
          | Some type =>
              if negb (default false (required d)) && Js.is_undefined v
              then ret None
              else r <- check_type validateType d type v ;; ret (Some r)
          end st = (Ok (Some (true, None)), st)) as ->.
  { destruct Hty as [-> | ->]; reflexivity. }
  by apply validator_stage_true.
Qed.

(** Validation against a descriptor typed by a list of constructors, for a
    value that is not undefined. *)
Lemma ctor_union_passes d cs v silent st s f :
  type_ d = Some (TArray (map TCtor cs)) -> validator d = Some f ->
  Js.is_undefined v = false -> Js.to_string v = Js.Got s ->
  (exists st', validateType (TPlain d) v silent st = (Ok (RBool true), st'))
  <-> existsb (fun c => accepted_by c v) cs = true
      /\ (exists st', f (ctx_of d) [v] (buffered st) = (Ok true, st')).
Proof.
  intros Hty Hf Hv Hs. rewrite validateType_unfold.
  unfold validateType_body, type_stage, bind at 1. simpl.
  rewrite Hty, Hv, andb_false_r. unfold check_type, bind at 1 2.
  pose proof (union_of_ctors cs v st s) as Hunion.
  destruct (some_M _ (map TCtor cs) st) as [[[]|e] st1]; cbn [ret].
  - destruct (proj1 (Hunion st1 Hv Hs) Logic.eq_refl) as [-> ->].
    rewrite (validator_stage_true d v silent st f Hf). tauto.
  - split.
    + intros [st' H]. by apply type_failure_not_true in H.
    + intros [Hex _].
      discriminate (proj2 (Hunion st Hv Hs) (conj Hex Logic.eq_refl)).
  - split; [intros [? ?]; discriminate|].
    intros [Hex _].
    discriminate (proj2 (Hunion st Hv Hs) (conj Hex Logic.eq_refl)).
Qed.

(** ** The native types as a decision procedure *)

Lemma some_M_decides {A} (f : A -> M bool) (g : A -> bool) l :
  Forall (fun x => forall st, f x st = (Ok (g x), st)) l ->
  forall st, some_M f l st = (Ok (existsb g l), st).
Proof.
  induction 1 as [|x l Hx _ IH]; intros st; [reflexivity|].
  simpl. unfold bind. rewrite Hx. destruct (g x); [reflexivity | apply IH].
Qed.

(** On a native type and a value whose conversion and constructor are read
    without failure the silent validation computes [native_accepts] and
    leaves the state as it is. *)
Lemma native_types_decided type v :
  native type -> plain_reads v = true ->
  forall st, utils_validate v type st = (Ok (native_accepts type v), st).
Proof.
  intros Hnative Hreads. unfold plain_reads in Hreads.
  destruct (Js.to_string v) as [s| |] eqn:Hs; try discriminate.
  destruct (getNativeType v) as [n| |] eqn:Hn; try discriminate.
  clear Hreads. revert Hnative.
  induction type as [ | |c|ts IH|d _ _|x] using tyval_nested_ind;
    intros Hnative st; try (by inversion Hnative).
  - unfold utils_validate, bind. cbn [native_accepts].
    destruct (Js.is_undefined v) eqn:Hv.
    + rewrite validateType_unfold.
      unfold validateType_body, type_stage, bind. simpl. by rewrite Hv.
    + rewrite (validate_ctor_silent c v st s Hv Hs).
      rewrite (native_check_got c v n Hn). simpl.
      by destruct (accepted_by c v).
  - inversion Hnative as [| |? Hts]; subst.
    assert (Forall (fun t => forall st,
              (r <- validateType t v true ;; ret (is_true r)) st
              = (Ok (native_accepts t v), st)) ts) as Heach.
    { apply Forall_forall. intros t Ht st0.
      apply (proj1 (Forall_forall _ _) IH t Ht).
      apply (proj1 (Forall_forall _ _) Hts t Ht). }
    unfold utils_validate. unfold bind at 1. rewrite validateType_unfold.
    cbn [typeToCheck_of native_accepts].
    unfold validateType_body, type_stage, bind at 1.
    cbn [wrap type_ required default negb andb].
    destruct (Js.is_undefined v) eqn:Hv; [reflexivity|].
    unfold check_type, bind at 1 2.
    rewrite (some_M_decides
               (fun type => r <- validateType type v true ;; ret (is_true r))
               (fun t => native_accepts t v) ts Heach st). cbn [ret orb].
    destruct (existsb _ ts); [reflexivity|].
    unfold type_failure, template, attempted, bind. by rewrite Hs.
Qed.

(** The type stage of a descriptor typed by a native type other than null,
    for a value other than undefined. *)
Lemma native_stage d t v st :
  type_ d = Some t -> native t -> t <> TNull ->
  Js.is_undefined v = false -> plain_reads v = true ->
  exists e, type_stage validateType d v st
            = (Ok (Some (native_accepts t v, e)), st).
Proof.
  intros Hty Hnative Hnull Hv Hreads.
  destruct Hnative as [|c|ts Hts]; [done| |].
  - unfold plain_reads in Hreads.
    destruct (Js.to_string v); try discriminate.
    destruct (getNativeType v) as [n| |] eqn:Hn; try discriminate.
    exists (ctor_name c). cbn [native_accepts]. rewrite Hv. simpl.
    unfold type_stage. rewrite Hty, Hv, andb_false_r.
    unfold bind at 1. rewrite (check_type_ctor d c v st Hty).
    unfold bind, attempted. by rewrite (native_check_got c v n Hn).
  - eexists. cbn [native_accepts]. rewrite Hv. simpl.
    unfold type_stage. rewrite Hty, Hv, andb_false_r.
    unfold check_type, bind at 1 2.
    rewrite (some_M_decides
               (fun type => r <- validateType type v true ;; ret (is_true r))
               (fun t => native_accepts t v) ts); [reflexivity|].
    apply Forall_forall. intros t Ht st0.
    apply (native_types_decided t v); [|exact Hreads].
    apply (proj1 (Forall_forall _ _) Hts t Ht).
Qed.

(** Validation against such a descriptor: the native type decides first,
    then the validator. *)
Lemma native_passes d t v silent st :
  type_ d = Some t -> native t -> t <> TNull ->
  Js.is_undefined v = false -> plain_reads v = true ->
  (exists st', validateType (TPlain d) v silent st = (Ok (RBool true), st'))
  <-> native_accepts t v = true
      /\ (forall f, validator d = Some f ->
            exists st', f (ctx_of d) [v] (buffered st) = (Ok true, st')).
Proof.
  intros Hty Hnative Hnull Hv Hreads. rewrite validateType_unfold.
  unfold validateType_body, bind at 1. cbn [typeToCheck_of].
  destruct (native_stage d t v st Hty Hnative Hnull Hv Hreads) as [e ->].
  destruct (native_accepts t v).
  - destruct (validator d) as [f|] eqn:Hf.
    + rewrite (validator_stage_true d v silent st f Hf). split.
      * intros H. split; [done|]. by intros f' [= <-].
      * intros [_ H]. by apply H.
    + unfold validator_stage. rewrite Hf. split; [|by eexists].
      intros _. split; [done|]. intros f [=].
  - split; [|intros [? _]; discriminate].
    intros [st' H]. by apply type_failure_not_true in H.
Qed.

(** No constructor accepts null. *)
Lemma null_rejected c : accepted_by c VNull = false.
Proof.
  unfold accepted_by, native_check. simpl.
  repeat (case_bool_decide; simpl; try reflexivity).
  all: congruence.
Qed.

(** The early exit of line 211 is taken by undefined only. *)
Lemma exit_only_undefined d v st st' :
  type_stage validateType d v st = (Ok None, st') -> v = VUndefined.
Proof.
  unfold type_stage. destruct (Js.is_undefined v) eqn:Hv; [by destruct v|].
  rewrite andb_false_r.
  destruct (type_ d) as [[]|]; try discriminate;
    unfold bind; destruct (check_type _ _ _ _ _) as [[]]; discriminate.
Qed.

(** A value other than undefined passes only if the validator, when there
    is one, has returned true. *)
Lemma passes_through_validator d v silent st st' f :
  validator d = Some f -> Js.is_undefined v = false ->
  validateType (TPlain d) v silent st = (Ok (RBool true), st') ->
  exists s s', f (ctx_of d) [v] s = (Ok true, s').
Proof.
  intros Hf Hv. rewrite validateType_unfold. cbn [typeToCheck_of].
  unfold validateType_body, bind at 1.
  destruct (type_stage validateType d v st) as [[[[[] e]|]|ex] st1] eqn:Hstage.
  - intros H.
    assert (exists st', validator_stage d v silent st1 = (Ok (RBool true), st'))
      as Hex by eauto.
    apply (validator_stage_true d v silent st1 f Hf) in Hex as [s' Hs'].
    eauto.
  - intros H. by apply type_failure_not_true in H.
  - apply exit_only_undefined in Hstage as ->. discriminate.
  - discriminate.
Qed.

(** ** C1: undefined and the required flag *)

(** C1 does not hold as stated: [VueTypes.symbol] is not required, yet
    validating undefined against it runs its validator and returns false.
    The test for undefined sits inside the block guarded by
    [typeToCheck.type !== null]. *)
Lemma C1_symbol_rejects_undefined :
  required VueTypes.symbol = None
  /\ type_ VueTypes.symbol = Some TNull
  /\ validateType (TPlain VueTypes.symbol) VUndefined false init
     = (Ok (RBool false), State Original [] [[]]).
Proof. repeat split; reflexivity. Qed.

(** C1, amended. For a descriptor that is not required: with an own `type`
    that is neither null nor undefined, validating undefined returns true at
    once, whatever the validator, and leaves the state as it was; with no
    `type` or the null marker there is no such exit and the validator, when
    there is one, decides. Null never takes the exit, whatever the `type`:
    it passes only if the validator, when there is one, has returned true
    on it; against a `type` that is a constructor, a user class included,
    or an array of constructors it does not pass; and against any native
    `type` it passes exactly when the type accepts it, which takes a null
    among the members of an array, and the validator returns true. *)
Theorem C1_undefined_short_circuit (d : descriptor) (silent : bool) (st : state) :
  required d <> Some true ->
  (has_native_type d ->
   validateType (TPlain d) VUndefined silent st = (Ok (RBool true), st))
  /\ (unconstrained d -> validator d = None ->
      validateType (TPlain d) VUndefined silent st = (Ok (RBool true), st))
  /\ (unconstrained d -> forall f b st',
        validator d = Some f ->
        f (ctx_of d) [VUndefined] (buffered st) = (Ok b, st') ->
        exists r st'',
          validateType (TPlain d) VUndefined silent st = (Ok r, st'')
          /\ is_true r = b)
  /\ (forall st', type_stage validateType d VNull st <> (Ok None, st'))
  /\ (forall f st',
        validator d = Some f ->
        validateType (TPlain d) VNull silent st = (Ok (RBool true), st') ->
        exists s s', f (ctx_of d) [VNull] s = (Ok true, s'))
  /\ (forall c, type_ d = Some (TCtor c) ->
        fst (validateType (TPlain d) VNull silent st) <> Ok (RBool true))
  /\ (forall cs, type_ d = Some (TArray (map TCtor cs)) ->
        fst (validateType (TPlain d) VNull silent st) <> Ok (RBool true))
  /\ (forall t, type_ d = Some t -> native t -> t <> TNull ->
        ((exists st',
            validateType (TPlain d) VNull silent st = (Ok (RBool true), st'))
         <-> native_accepts t VNull = true
             /\ (forall f, validator d = Some f ->
                   exists st', f (ctx_of d) [VNull] (buffered st)
                               = (Ok true, st')))).
Proof.
  intros Hreq.
  assert (forall t, type_ d = Some t -> native t -> t <> TNull ->
            native_accepts t VNull = false ->
            fst (validateType (TPlain d) VNull silent st) <> Ok (RBool true))
    as Hrejects.
  { intros t Ht Hnative Hnull Hacc Hpass.
    destruct (validateType _ _ _ _) as [o st'] eqn:Hrun. simpl in Hpass.
    subst o.
    destruct (proj1 (native_passes d t VNull silent st Ht Hnative Hnull
                       Logic.eq_refl Logic.eq_refl)) as [Hyes _];
      [by eexists | congruence]. }
  split; [|split; [|split; [|split; [|split; [|split; [|split]]]]]].
  - intros Hty. by apply short_circuit.
  - intros Hty Hf. by apply unconstrained_no_validator.
  - intros Hty f b st' Hf Hrun. by eapply unconstrained_runs_validator.
  - intros st' Hexit. by apply exit_only_undefined in Hexit.
  - intros f st' Hf Hpass.
    by apply (passes_through_validator d VNull silent st st' f Hf).
  - intros c Ht. apply (Hrejects (TCtor c) Ht); [constructor|discriminate|].
    apply null_rejected.
  - intros cs Ht. apply (Hrejects (TArray (map TCtor cs)) Ht).
    + constructor. apply Forall_forall. intros t (c & -> & _)%list_elem_of_fmap.
      constructor.
    + discriminate.
    + simpl. clear Ht. induction cs as [|c cs IH]; [reflexivity|]. simpl.
      by rewrite null_rejected.
  - intros t Ht Hnative Hnull. by apply native_passes.
Qed.

Lemma C1_witness :
  validateType (TPlain VueTypes.integer_base) VUndefined false init
  = (Ok (RBool true), init).
Proof.
  refine (proj1 (C1_undefined_short_circuit VueTypes.integer_base false init _) _).
  - discriminate.
  - exists (TCtor CNumber). split; reflexivity.
Defined.

(** ** C10 and C8: the method [def] *)

Lemma def_unchanged d st :
  default_truthy (default_ d) = false -> def d VUndefined st = (Ok d, st).
Proof. intros H. unfold def. simpl. rewrite H. reflexivity. Qed.

(** C10. The guard of [def] tests the truthiness of `default`: with a falsy
    default (absent, 0, the empty string, false, null, NaN) [def(undefined)]
    returns the descriptor as it is; with a truthy default, on a descriptor
    that is not required and has a native type, undefined is validated,
    passes, and replaces the default. *)
Theorem C10_def_undefined (d : descriptor) (st : state) :
  (default_truthy (default_ d) = false -> def d VUndefined st = (Ok d, st))
  /\ (default_truthy (default_ d) = true -> required d <> Some true ->
      has_native_type d ->
      def d VUndefined st
      = (Ok (set_default (Some (DValue VUndefined)) d), st))
  /\ Forall (fun v => default_truthy v = false)
       [None; Some (DValue (VNum (Int 0))); Some (DValue (VStr EmptyString));
        Some (DValue (VBool false)); Some (DValue VNull);
        Some (DValue (VNum NaN)); Some (DValue VUndefined)].
Proof.
  split; [apply def_unchanged|]. split.
  - intros Htruthy Hreq Hty. unfold def.
    cbn [Js.is_undefined isFunction andb]. rewrite Htruthy. cbn [negb].
    unfold bind. rewrite short_circuit by assumption. reflexivity.
  - repeat constructor.
Qed.

Lemma C10_witness :
  def (set_default (Some (DValue (VNum (Int 0)))) VueTypes.integer_base)
    VUndefined init
  = (Ok (set_default (Some (DValue (VNum (Int 0)))) VueTypes.integer_base), init)
  /\ def (set_default (Some (DValue (VNum (Int 7)))) VueTypes.integer_base)
       VUndefined init
     = (Ok (set_default (Some (DValue VUndefined)) VueTypes.integer_base), init).
Proof.
  split.
  - apply (proj1 (C10_def_undefined _ init)). reflexivity.
  - refine (proj1 (proj2 (C10_def_undefined
      (set_default (Some (DValue (VNum (Int 7)))) VueTypes.integer_base) init))
      _ _ _).
    + reflexivity.
    + discriminate.
    + exists (TCtor CNumber). split; reflexivity.
Defined.

Lemma def_function d x st :
  isFunction x = true ->
  def d x st = (Ok (set_default (Some (DValue x)) d), st).
Proof. destruct x; try discriminate. reflexivity. Qed.

Lemma def_guard_passed (d : descriptor) x :
  ~ (x = VUndefined /\ default_truthy (default_ d) = false) ->
  Js.is_undefined x && negb (default_truthy (default_ d)) = false.
Proof.
  intros H. destruct x; simpl; try reflexivity.
  destruct (default_truthy _); simpl; [reflexivity | tauto].
Qed.

Lemma def_rejected d x st st1 s :
  ~ (x = VUndefined /\ default_truthy (default_ d) = false) ->
  isFunction x = false ->
  validateType (TPlain d) x false st = (Ok (RBool false), st1) ->
  Js.to_string x = Js.Got s ->
  def d x st
  = (Ok d, emit (show_name (_vueTypes_name d) +:+ " - invalid default value: "
                 +:+ dq +:+ s +:+ dq) st1).
Proof.
  intros Hguard Hfn Hval Hs. unfold def, bind, template, attempted.
  rewrite (def_guard_passed _ _ Hguard), Hfn, Hval. simpl.
  rewrite Hs. simpl. rewrite warn_run. reflexivity.
Qed.

Lemma def_accepted d x st st1 :
  ~ (x = VUndefined /\ default_truthy (default_ d) = false) ->
  isFunction x = false ->
  validateType (TPlain d) x false st = (Ok (RBool true), st1) ->
  def d x st = (Ok (set_default (Some (stored x)) d), st1).
Proof.
  intros Hguard Hfn Hval. unfold def, bind, stored.
  rewrite (def_guard_passed _ _ Hguard), Hfn, Hval. simpl.
  destruct (isArray x); [reflexivity|]. destruct (isPlainObject x); reflexivity.
Qed.

(** C8 does not hold as stated for the candidate undefined: on
    [toType('string', { type: String }, true).def('')], whose default is the
    empty string, undefined passes validation, yet [def(undefined)] does not
    store it; the descriptor comes back as it was. *)
Lemma C8_undefined_not_stored :
  exists d,
    def (toType "string" (literal (Some (TCtor CString)) None) true)
      (VStr EmptyString) init = (Ok d, init)
    /\ default_ d = Some (DValue (VStr EmptyString))
    /\ validateType (TPlain d) VUndefined false init = (Ok (RBool true), init)
    /\ def d VUndefined init = (Ok d, init).
Proof. eexists. repeat split; reflexivity. Qed.

(** C8, amended. Leaving aside the call [def(undefined)] on a falsy default
    (see C10): a function is stored as it is, without validation; a value
    that validation rejects and that converts to a string gives one warning
    and the descriptor unchanged; a value that validation accepts is stored,
    an array or plain object as a closure whose every call returns an object
    at a new address with the same contents, anything else as it is. *)
Theorem C8_def (d : descriptor) (x : value) (st : state) :
  ~ (x = VUndefined /\ default_truthy (default_ d) = false) ->
  (isFunction x = true ->
   def d x st = (Ok (set_default (Some (DValue x)) d), st))
  /\ (isFunction x = false -> forall st1 s,
        validateType (TPlain d) x false st = (Ok (RBool false), st1) ->
        Js.to_string x = Js.Got s ->
        exists msg, def d x st = (Ok d, emit msg st1))
  /\ (isFunction x = false -> forall st1,
        validateType (TPlain d) x false st = (Ok (RBool true), st1) ->
        exists f,
          def d x st = (Ok (set_default (Some f) d), st1)
          /\ (isArray x || isPlainObject x = true ->
              forall l next, address x = Some l -> l < next ->
              exists y, call_default f next = Some (y, S next)
                        /\ address y = Some next
                        /\ Js.deep_equal y x = true
                        /\ Js.strict_eq y x = false)
          /\ (isArray x || isPlainObject x = false -> f = DValue x)).
Proof.
  intros Hguard. split; [apply def_function|]. split.
  - intros Hfn st1 s Hval Hs. eexists. by apply def_rejected.
  - intros Hfn st1 Hval. exists (stored x). split; [by apply def_accepted|].
    unfold stored. split.
    + intros Hkind l next Hl Hlt. apply (copy_is_fresh _ x next l); try done.
      destruct (isArray x) eqn:Ha; [by left|]. right. simpl in Hkind.
      by rewrite Hkind.
    + intros Hkind. apply orb_false_elim in Hkind as [-> ->]. reflexivity.
Qed.

Lemma C8_witness :
  let array := toType "array" (literal (Some (TCtor CArray)) None) true in
  let x := VArr 1 [VNum (Int 0); VNum (Int 1)] in
  def VueTypes.any (VFun 3 "function myFn() {}") init
  = (Ok (set_default (Some (DValue (VFun 3 "function myFn() {}"))) VueTypes.any),
     init)
  /\ exists f y,
       def array x init = (Ok (set_default (Some f) array), init)
       /\ call_default f 2 = Some (y, 3)
       /\ Js.deep_equal y x = true
       /\ Js.strict_eq y x = false.
Proof.
  intros array x. split.
  - refine (proj1 (C8_def VueTypes.any (VFun 3 "function myFn() {}") init _) _).
    + intros [H _]. discriminate.
    + reflexivity.
  - destruct (C8_def array x init) as (_ & _ & Haccepted).
    + intros [H _]. discriminate.
    + destruct (Haccepted Logic.eq_refl init Logic.eq_refl)
        as (f & Hdef & Hcopy & _).
      destruct (Hcopy Logic.eq_refl 1 2 Logic.eq_refl) as (y & Hcall & _ & Hdeep & Hstrict);
        [lia|].
      by exists f, y.
Defined.

(** ** C9 and C5: the registry *)

Lemma extend_arg_nested_ind (P : extend_arg -> Prop) :
  (forall p, P (One p)) ->
  (forall ps, Forall P ps -> P (Many ps)) ->
  forall a, P a.
Proof.
  intros Hone Hmany. fix IH 1. intros [p | ps].
  - apply Hone.
  - apply Hmany. induction ps as [|a ps IHps]; constructor;
      [apply IH | exact IHps].
Qed.

Lemma extend_one_taken props (reg : gmap string member) :
  is_Some (reg !! name props) ->
  extend_one props reg
  = (Throw (TypeError ("[VueTypes error]: Type " +:+ dq +:+ name props
                       +:+ dq +:+ " already defined")), reg).
Proof.
  intros H. unfold extend_one. by rewrite bool_decide_eq_true_2.
Qed.

Lemma extend_one_keeps props (reg : gmap string member) n m :
  reg !! n = Some m -> snd (extend_one props reg) !! n = Some m.
Proof.
  intros Hn. unfold extend_one.
  destruct (bool_decide (is_Some (reg !! name props))) eqn:Htaken; [exact Hn|].
  apply bool_decide_eq_false in Htaken.
  destruct (match type_ (opts props) with
            | Some (TPlain type) => _ | _ => _ end) as [o v]; simpl.
  rewrite lookup_insert_ne; [exact Hn|].
  intros Heq. apply Htaken. rewrite Heq, Hn. eauto.
Qed.

Lemma extend_keeps arg :
  forall (reg : gmap string member) n m,
    reg !! n = Some m -> snd (extend arg reg) !! n = Some m.
Proof.
  induction arg as [p | ps IH] using extend_arg_nested_ind; intros reg n m Hn.
  - by apply extend_one_keeps.
  - simpl. revert reg Hn.
    induction IH as [|a ps Ha _ IHps]; intros reg Hn; [exact Hn|].
    unfold bind. specialize (Ha reg n m Hn).
    destruct (extend a reg) as [[[]|e] reg1]; simpl in *; [|exact Ha].
    by apply IHps.
Qed.

(** C9. A call of [extend] with a name that the registry already owns
    raises a TypeError and leaves the registry as it was; and no call of
    [extend], of an object or of an array, changes what is stored under a
    name already there. *)
Theorem C9_extend_never_overwrites (props : spec) (reg : gmap string member) :
  is_Some (reg !! name props) ->
  (exists msg, extend (One props) reg = (Throw (TypeError msg), reg))
  /\ (forall arg n m, reg !! n = Some m -> snd (extend arg reg) !! n = Some m).
Proof.
  intros Htaken. split.
  - eexists. simpl. by apply extend_one_taken.
  - intros arg n m. apply extend_keeps.
Qed.

Lemma C9_witness :
  exists msg,
    extend (One (Spec "shape" false true (literal (Some (TCtor CObject)) None)))
      initial
    = (Throw (TypeError msg), initial).
Proof.
  refine (proj1 (C9_extend_never_overwrites
    (Spec "shape" false true (literal (Some (TCtor CObject)) None)) initial _)).
  vm_compute. eauto.
Defined.

Lemma both_passes type pf cf this args st st' :
  both type pf cf this args st = (Ok true, st') ->
  exists st1, pf (ctx_of type) args st = (Ok true, st1)
              /\ cf this args st1 = (Ok true, st').
Proof.
  unfold both, bind.
  destruct (pf _ _ _) as [[[]|e] st1]; simpl; try discriminate; eauto.
Qed.

(** C5 does not hold as stated for a property registered as a function and
    called with arguments: the validators receive the arguments of that call
    before the validated value. The type derived from [integer] and made by
    the call [n(5)] accepts NaN, which the validator of [integer] rejects:
    the parent's validator is applied to 5. *)
Lemma C5_parent_validator_sees_call_arguments :
  exists parent st0 reg m d pf f,
    integer (VNum (Int 0)) init = (Ok parent, st0)
    /\ extend (One (Spec "n" false false (literal (Some (TPlain parent)) None)))
         initial = (Ok tt, reg)
    /\ reg !! "n" = Some m
    /\ instantiate "n" m [VNum (Int 5)] = Some d
    /\ validator parent = Some pf /\ validator d = Some f
    /\ pf (ctx_of parent) [VNum NaN] st0 = (Ok false, st0)
    /\ f (ctx_of d) [VNum NaN] st0 = (Ok true, st0)
    /\ validateType (TPlain parent) (VNum NaN) true st0
       = (Ok (RMsg EmptyString), after_buffer st0)
    /\ validateType (TPlain d) (VNum NaN) true st0
       = (Ok (RBool true), after_buffer st0).
Proof.
  do 7 eexists.
  split; [reflexivity|]. split; [reflexivity|].
  split; [vm_compute; reflexivity|].
  split; [reflexivity|]. split; [reflexivity|]. split; [reflexivity|].
  repeat split; reflexivity.
Qed.

(** C5, amended. [extend] with a descriptor as `type`: the registered
    descriptor has the parent's `type`, `required` and `default` wherever
    the parent defines them and has the stub for [validate] whatever the
    `validate` flag says. When the parent has a validator the derived
    validator calls it, on the parent, with the arguments it received: it
    returns false where the parent's does, raises where the parent's does,
    and otherwise returns what the child's validator (or [stubTrue]) then
    returns on the same arguments. For an accessor, and for a function
    called without arguments, these arguments are the validated value, so a
    value other than undefined passes validation only if the parent's
    validator has returned true on it; for a function called with arguments
    they are the arguments of that call followed by the value. *)
Theorem C5_extend_inherits (props : spec) (parent : descriptor)
    (reg : gmap string member) (args : list value) :
  reg !! name props = None ->
  type_ (opts props) = Some (TPlain parent) ->
  name_truthy (_vueTypes_name parent) = true ->
  exists m d,
    extend (One props) reg = (Ok tt, <[name props := m]> reg)
    /\ instantiate (name props) m args = Some d
    /\ (forall t, type_ parent = Some t -> t <> TUndefined -> type_ d = Some t)
    /\ (forall r, required parent = Some r -> required d = Some r)
    /\ (forall v, default_ parent = Some v -> v <> DValue VUndefined ->
          default_ d = Some v)
    /\ validate_ d = ValidateStub
    /\ (forall pf, validator parent = Some pf ->
        exists f, validator d = Some f
          /\ (forall this rest st,
                f this rest st
                = match pf (ctx_of parent) (received props args rest) st with
                  | (Ok true, st1) =>
                      default stubTrue (validator (opts props)) this
                        (received props args rest) st1
                  | (Ok false, st') => (Ok false, st')
                  | (Throw e, st') => (Throw e, st')
                  end)
          /\ (forall v silent st st',
                Js.is_undefined v = false ->
                validateType (TPlain d) v silent st = (Ok (RBool true), st') ->
                exists s s1,
                  pf (ctx_of parent) (received props args [v]) s
                  = (Ok true, s1))
          /\ (getter props = true \/ args = [] ->
              forall v silent st st',
                Js.is_undefined v = false ->
                validateType (TPlain d) v silent st = (Ok (RBool true), st') ->
                exists s s1, pf (ctx_of parent) [v] s = (Ok true, s1))).
Proof.
  intros Hfree Htype Hname.
  assert (forall o : descriptor,
            (forall t, type_ parent = Some t -> t <> TUndefined ->
                       type_ (inherit parent o) = Some t)
            /\ (forall r, required parent = Some r ->
                          required (inherit parent o) = Some r)
            /\ (forall v, default_ parent = Some v -> v <> DValue VUndefined ->
                          default_ (inherit parent o) = Some v)) as Hinh.
  { intros o. unfold inherit. repeat split.
    - intros t Ht Hdef. rewrite Ht.
      destruct t; try congruence;
        destruct (required parent); destruct (default_ parent) as [[[]| |]|];
        reflexivity.
    - intros r Hr. rewrite Hr.
      destruct (default_ parent) as [[[]| |]|]; reflexivity.
    - intros v Hv Hdef. rewrite Hv.
      destruct v as [[]| |]; try congruence; reflexivity. }
  destruct (Hinh (opts props)) as (Hty & Hreq & Hdef).
  assert (validator (inherit parent (opts props)) = validator (opts props))
    as Hval.
  { unfold inherit. destruct (type_ parent) as [[]|]; destruct (required parent);
      destruct (default_ parent) as [[[]| |]|]; reflexivity. }
  assert (forall pf cf this received st,
            both parent pf cf this received st
            = match pf (ctx_of parent) received st with
              | (Ok true, st1) => cf this received st1
              | (Ok false, st') => (Ok false, st')
              | (Throw e, st') => (Throw e, st')
              end) as Hboth.
  { intros pf cf this received st. unfold both, bind.
    by destruct (pf _ _ _) as [[[]|e] st1]. }
  unfold extend, extend_one.
  rewrite bool_decide_eq_false_2 by (rewrite Hfree; by intros [? ?]).
  rewrite Htype, Hname. unfold received.
  destruct (validator parent) as [pf|] eqn:Hpf; destruct (getter props) eqn:Hget.
  - do 2 eexists. split; [reflexivity|]. split; [reflexivity|].
    repeat (split; [assumption || reflexivity|]).
    intros pf' [= <-]. eexists. split; [reflexivity|].
    assert (forall v silent st st',
              Js.is_undefined v = false ->
              validateType
                (TPlain (toType (name props)
                           (set_validator
                              (Some (both parent pf
                                       (default stubTrue
                                          (validator (opts props)))))
                              (inherit parent (opts props))) false))
                v silent st = (Ok (RBool true), st') ->
              exists s s1, pf (ctx_of parent) [v] s = (Ok true, s1)) as Hpass.
    { intros v silent st st' Hv Hrun.
      set (d := toType _ _ _) in Hrun.
      apply (passes_through_validator d v silent st st' _ Logic.eq_refl Hv)
        in Hrun as (s & s' & Hs).
      apply both_passes in Hs as (st1 & Hs & _). eauto. }
    split; [intros this rest st; apply Hboth|]. split; [exact Hpass|].
    intros _. exact Hpass.
  - do 2 eexists. split; [reflexivity|]. split; [reflexivity|].
    repeat (split; [assumption || reflexivity|]).
    intros pf' [= <-]. eexists. split; [reflexivity|].
    assert (forall v silent st st',
              Js.is_undefined v = false ->
              validateType
                (TPlain (set_validator
                           (Some (bind_args
                                    (both parent pf
                                       (default stubTrue
                                          (validator (opts props)))) args))
                           (toType (name props)
                              (set_validator
                                 (Some (both parent pf
                                          (default stubTrue
                                             (validator (opts props)))))
                                 (inherit parent (opts props))) false)))
                v silent st = (Ok (RBool true), st') ->
              exists s s1, pf (ctx_of parent) (args ++ [v]) s = (Ok true, s1))
      as Hpass.
    { intros v silent st st' Hv Hrun.
      set (d := set_validator _ _) in Hrun.
      apply (passes_through_validator d v silent st st' _ Logic.eq_refl Hv)
        in Hrun as (s & s' & Hs).
      unfold bind_args in Hs.
      apply both_passes in Hs as (st1 & Hs & _). eauto. }
    split; [intros this rest st; unfold bind_args; apply Hboth|].
    split; [exact Hpass|].
    intros [[=] | ->]. exact Hpass.
  - do 2 eexists. split; [reflexivity|]. split; [reflexivity|].
    repeat (split; [assumption || reflexivity|]). intros pf' [=].
  - do 2 eexists. split; [reflexivity|]. split; [reflexivity|].
    rewrite Hval. destruct (validator (opts props));
      repeat (split; [assumption || reflexivity|]); intros pf' [=].
Qed.

Lemma C5_witness :
  let parent := isRequired integer_base in
  let props := Spec "positive" true true (literal (Some (TPlain parent)) None) in
  exists m d,
    extend (One props) initial = (Ok tt, <["positive" := m]> initial)
    /\ instantiate "positive" m [] = Some d
    /\ type_ d = Some (TCtor CNumber)
    /\ required d = Some true
    /\ validate_ d = ValidateStub.
Proof.
  intros parent props.
  destruct (C5_extend_inherits props parent initial [])
    as (m & d & Hext & Hinst & Hty & Hreq & _ & Hstub & _).
  - reflexivity.
  - reflexivity.
  - reflexivity.
  - exists m, d. repeat split; try assumption.
    + by apply Hty.
    + by apply Hreq.
Defined.

(** ** C7: [oneOf] *)

Lemma allowedTypes_acc arr : forall acc,
  foldl (fun ret v =>
           match builtin v with
           | Some c => if bool_decide (c ∈ ret) then ret else ret ++ [c]
           | None => ret
           end) acc arr
  = acc ++ filter (fun c => c ∉ acc)
             (distinct_in_order (omap builtin arr)).
Proof.
  induction arr as [|v arr IH]; intros acc; simpl.
  - by rewrite app_nil_r.
  - destruct (builtin v) as [c|]; [|apply IH].
    simpl. rewrite IH. case_bool_decide as Hc.
    + rewrite filter_cons_False by (intros H; by apply H).
      f_equal. rewrite list_filter_filter. apply list_filter_iff.
      intros c'. split; [|tauto]. intros H. split; [exact H|]. congruence.
    + rewrite filter_cons_True by exact Hc.
      rewrite <- app_assoc. simpl. do 2 f_equal.
      rewrite list_filter_filter. apply list_filter_iff.
      intros c'. rewrite not_elem_of_app, not_elem_of_cons. split.
      * intros (? & ? & _). tauto.
      * intros (? & ?). split; [done|]. split; [done|]. apply not_elem_of_nil.
Qed.

Lemma filter_all {A} (P : A -> Prop) `{forall x, Decision (P x)} (l : list A) :
  (forall x, P x) -> filter P l = l.
Proof.
  intros HP. induction l as [|x l IH]; [reflexivity|].
  rewrite filter_cons_True by apply HP. by rewrite IH.
Qed.

Lemma seen_native c ret :
  existsb (Js.same_constructor (Js.Native c)) (map Js.Native ret)
  = bool_decide (c ∈ ret).
Proof.
  induction ret as [|x ret IH]; simpl; [reflexivity|].
  rewrite IH. apply eq_true_iff_eq.
  rewrite orb_true_iff, !bool_decide_eq_true, elem_of_cons. tauto.
Qed.

(** On members without a [constructor] of their own the reduce of [oneOf]
    collects constructors. *)
Lemma allowedTypes_stock arr : forall acc,
  Forall (fun a => stock a = true) arr ->
  foldl (fun ret v =>
           match Js.constructor_of v with
           | Some c =>
               if existsb (Js.same_constructor c) ret then ret else ret ++ [c]
           | None => ret
           end) (map Js.Native acc) arr
  = map Js.Native
      (foldl (fun ret v =>
                match builtin v with
                | Some c => if bool_decide (c ∈ ret) then ret else ret ++ [c]
                | None => ret
                end) acc arr).
Proof.
  induction arr as [|v arr IH]; intros acc Hstock; [reflexivity|].
  apply Forall_cons in Hstock as [Hv Hstock]. simpl.
  unfold stock, builtin in *.
  destruct (Js.constructor_of v) as [[c|x]|]; try discriminate.
  - rewrite seen_native. case_bool_decide; [by apply IH|].
    change [Js.Native c] with (map Js.Native [c]). rewrite <- map_app.
    by apply IH.
  - by apply IH.
Qed.

Lemma allowedTypes_spec arr :
  Forall (fun a => stock a = true) arr ->
  allowedTypes arr = map Js.Native (distinct_in_order (omap builtin arr)).
Proof.
  intros Hstock. unfold allowedTypes.
  pose proof (allowedTypes_stock arr [] Hstock) as H. cbn [map] in H.
  rewrite H, allowedTypes_acc. simpl.
  f_equal. apply filter_all. intros c. apply not_elem_of_nil.
Qed.

Lemma as_types_native cs : as_types (map Js.Native cs) = Js.Got (map TCtor cs).
Proof. induction cs as [|c cs IH]; [reflexivity|]. simpl. by rewrite IH. Qed.




(** ** C6: [shape] *)

Lemma every_M_true {A} (f : A -> M bool) l st st' :
  every_M f l st = (Ok true, st') <-> all_pass f l st st'.
Proof.
  revert st. induction l as [|x l IH]; intros st; simpl.
  - unfold ret. split.
    + intros [= <-]. constructor.
    + inversion 1. reflexivity.
  - unfold bind. split.
    + destruct (f x st) as [[[]|e] st1] eqn:Hx; try discriminate.
      intros H%IH. by econstructor.
    + inversion 1 as [|? ? ? st1 ? Hx Hrest]; subst. rewrite Hx.
      by apply IH.
Qed.

Lemma get_is_Some {A} (obj : list (string * A)) key :
  key ∈ map fst obj <-> is_Some (get obj key).
Proof.
  induction obj as [|[k x] obj IH]; simpl.
  - split; [by intros ?%elem_of_nil | by intros [? ?]].
  - rewrite elem_of_cons, IH. case_bool_decide as Hk.
    + split; [eauto | by left].
    + split; [intros [?|?]; [congruence | done] | by right].
Qed.

Lemma is_required_field_spec obj key :
  is_required_field obj key = true
  <-> exists d, get obj key = Some (TPlain d) /\ required d = Some true.
Proof.
  unfold is_required_field.
  destruct (get obj key) as [[ | | | |d| ]|]; simpl;
    try (split; [discriminate | intros (? & [=] & _)]).
  rewrite bool_decide_eq_true. split; [eauto|].
  by intros (? & [= <-] & ?).
Qed.

Lemma absent_spec keys key : absent keys key = true <-> key ∉ keys.
Proof.
  unfold absent. rewrite negb_true_iff, bool_decide_eq_false. reflexivity.
Qed.

Lemma missing_spec obj props key :
  key ∈ filter (fun req => absent (map fst props) req)
         (filter (fun key => is_required_field obj key) (map fst obj))
  <-> required_absent obj props key.
Proof.
  rewrite !list_elem_of_filter, !Is_true_true, absent_spec,
    is_required_field_spec.
  unfold required_absent. tauto.
Qed.

Lemma shape_every_true obj this props key st st1 :
  shape_every obj this props key st = (Ok true, st1)
  <-> ((key ∉ map fst obj) /\ this_isLoose this = Some true /\ st1 = st)
      \/ (exists type, get obj key = Some type
            /\ validateType type (default VUndefined (get props key)) true st
               = (Ok (RBool true), st1)).
Proof.
  unfold shape_every. destruct (absent (map fst obj) key) eqn:Habs.
  - apply absent_spec in Habs. case_bool_decide as Hloose.
    + unfold ret. split.
      * intros [= <-]. by left.
      * intros [(_ & _ & ->) | (t & Ht & _)]; [reflexivity|].
        exfalso. apply Habs, get_is_Some. eauto.
    + unfold bind. rewrite warn_run. simpl. split; [discriminate|].
      intros [(_ & ? & _) | (t & Ht & _)]; [done|].
      exfalso. apply Habs, get_is_Some. eauto.
  - assert (key ∈ map fst obj) as Hin.
    { apply not_true_iff_false in Habs. rewrite absent_spec in Habs.
      by apply dec_stable. }
    destruct (proj1 (get_is_Some obj key) Hin) as [t Ht]. rewrite Ht. simpl.
    unfold bind.
    destruct (validateType t _ true st) as [[[b|msg]|e] s1] eqn:Hv; simpl.
    + unfold ret. split.
      * intros [= -> <-]. right. eauto.
      * intros [(Hout & _) | (t' & [= <-] & Hv')]; [done|].
        rewrite Hv in Hv'. by injection Hv' as -> ->.
    + rewrite warn_run. simpl. split; [discriminate|].
      intros [(Hout & _) | (t' & [= <-] & Hv')]; [done|].
      rewrite Hv in Hv'. discriminate.
    + split; [discriminate|].
      intros [(Hout & _) | (t' & [= <-] & Hv')]; [done|].
      rewrite Hv in Hv'. discriminate.
Qed.

Lemma all_pass_shape obj this props keys st st' :
  all_pass (shape_every obj this props) keys st st'
  <-> shape_accepts obj this props keys st st'.
Proof.
  split.
  - induction 1 as [|key keys st st1 st' Hkey _ IH]; [constructor|].
    apply shape_every_true in Hkey as [(Hout & Hloose & ->) | (t & Ht & Hv)].
    + by apply accepts_undeclared.
    + by eapply accepts_declared.
  - induction 1 as [| key keys st st' Hout Hloose _ IH
                    | key keys t st st1 st' Ht Hv _ IH].
    + constructor.
    + econstructor; [|exact IH]. apply shape_every_true. by left.
    + econstructor; [|exact IH]. apply shape_every_true. right. eauto.
Qed.

(** C6. The validator of [shape(obj)]: a value that is not a plain object
    (what [isPlainObject] rejects, an object with a [constructor] of its
    own included) is rejected; a plain object lacking a key that [obj]
    declares with [required === true] is rejected with one warning that
    names all such keys; any other plain object passes exactly when each of
    its own keys, in order, is either declared and validates silently
    against the declared type, or is not declared while the shape is
    loose. *)
Theorem C6_shape (obj : list (string * tyval)) (this : this_ctx) (st : state) :
  validator (shape obj) = Some (shape_validator obj)
  /\ (forall v, isPlainObject v = false ->
        shape_validator obj this [v] st = (Ok false, st))
  /\ (forall l props,
        isPlainObject (VObj l props) = true ->
        (exists key, required_absent obj props key) ->
        exists missing,
          shape_validator obj this [VObj l props] st
          = (Ok false, emit (missing_message missing) st)
          /\ forall key, key ∈ missing <-> required_absent obj props key)
  /\ (forall l props,
        isPlainObject (VObj l props) = true ->
        (forall key, ~ required_absent obj props key) ->
        forall st',
          shape_validator obj this [VObj l props] st = (Ok true, st')
          <-> shape_accepts obj this props (map fst props) st st').
Proof.
  split; [reflexivity|]. split; [|split].
  - intros v Hv. destruct v; try reflexivity. unfold shape_validator.
    change (arg0 [VObj l props]) with (VObj l props). cbv beta iota zeta.
    by rewrite Hv.
  - intros l props Hplain (key & Hkey). unfold shape_validator.
    change (arg0 [VObj l props]) with (VObj l props). cbv beta iota zeta.
    rewrite Hplain. cbn [negb].
    set (requiredKeys := filter _ (map fst obj)).
    set (missing := filter _ requiredKeys).
    assert (key ∈ missing) as Hin by (by apply missing_spec).
    assert (negb (bool_decide (requiredKeys = []))
            && existsb (absent (map fst props)) requiredKeys = true) as ->.
    { apply list_elem_of_filter in Hin as [Habs Hreq].
      apply andb_true_iff. split.
      - apply negb_true_iff, bool_decide_eq_false. intros Hnil.
        rewrite Hnil in Hreq. by apply elem_of_nil in Hreq.
      - apply existsb_exists. exists key. split.
        + by apply list_elem_of_In.
        + by apply Is_true_true. }
    exists missing. split; [|intros k; apply missing_spec].
    unfold bind, missing_message.
    destruct missing as [|m [|m' rest]]; rewrite warn_run; reflexivity.
  - intros l props Hplain Hnone st'. unfold shape_validator.
    change (arg0 [VObj l props]) with (VObj l props). cbv beta iota zeta.
    rewrite Hplain. cbn [negb].
    set (requiredKeys := filter _ (map fst obj)).
    assert (negb (bool_decide (requiredKeys = []))
            && existsb (absent (map fst props)) requiredKeys = false) as ->.
    { apply andb_false_iff. right. apply not_true_iff_false.
      intros (key & Hin & Habs)%existsb_exists.
      apply (Hnone key), missing_spec, list_elem_of_filter. split.
      - by apply Is_true_true.
      - by apply list_elem_of_In. }
    rewrite every_M_true. apply all_pass_shape.
Qed.

Lemma C6_witness :
  let obj := [("id", TPlain (isRequired integer_base)); ("name", TCtor CString)] in
  let this := ctx_of (shape obj) in
  (exists missing,
     shape_validator obj this [VObj 1 [("name", VStr "John")]] init
     = (Ok false, emit (missing_message missing) init))
  /\ (exists st',
        shape_validator obj this [VObj 1 [("id", VNum (Int 10))]] init
        = (Ok true, st')).
Proof.
  intros obj this.
  destruct (C6_shape obj this init) as (_ & _ & Hmissing & Hpass). split.
  - destruct (Hmissing 1 [("name", VStr "John")] Logic.eq_refl)
      as (missing & H & _); [|eauto].
    exists "id". split; [by left|]. split.
    + eexists. split; reflexivity.
    + by intros [=]%list_elem_of_singleton.
  - eexists. apply Hpass; [reflexivity| |].
    + intros key (_ & (d & Hget & _) & Hout). simpl in Hget.
      case_bool_decide as Hid.
      * subst key. apply Hout. by left.
      * case_bool_decide; discriminate.
    + eapply accepts_declared; [reflexivity | reflexivity | constructor].
Defined.

(** ** C3: [oneOfType] *)


Lemma some_pass_witness {A} (f : A -> M bool) l st st' :
  some_pass f l st st' -> exists x s, x ∈ l /\ f x s = (Ok true, st').
Proof.
  induction 1 as [x l st st' Hx | x l st st1 st' _ _ (y & s & Hy & Hrun)].
  - exists x, st. split; [by left | exact Hx].
  - exists y, s. split; [by right | exact Hrun].
Qed.













(** ** C2: when the engine returns *)















(** *** The builders give types on which the engine returns *)










(** ** C4: the swap of `warn` *)

Lemma validator_stage_binding d v silent st r st' :
  validator_stage d v silent st = (Ok r, st') ->
  warn_binding st' = warn_binding st.
Proof.
  unfold validator_stage, bind.
  destruct (validator d) as [f|]; [|by intros [= _ <-]]. simpl.
  destruct (f _ _ _) as [[[]|e] st1]; simpl; try discriminate.
  - by intros [= _ <-].
  - destruct silent; simpl; [by intros [= _ <-]|].
    destruct (bool_decide _); simpl; try rewrite warn_run; simpl;
      intros [= _ <-]; [reflexivity|]. by rewrite emit_binding.
Qed.

Lemma type_failure_binding d v silent e st r st' :
  type_failure d v silent e st = (Ok r, st') ->
  warn_binding st' = warn_binding st.
Proof.
  unfold type_failure, template, attempted, bind.
  destruct (Js.to_string v); simpl; [|discriminate..].
  destruct silent; simpl; [by intros [= _ <-]|].
  rewrite warn_run. simpl. intros [= _ <-]. by rewrite emit_binding.
Qed.

(** The check against a type that is no array leaves the state as it is. *)
Lemma check_type_state d t v st x s1 :
  (forall ts, t <> TArray ts) ->
  check_type validateType d t v st = (Ok x, s1) -> s1 = st.
Proof.
  intros Ht. unfold check_type.
  destruct t as [ | |c|ts|d'|[]]; try (by destruct (Ht ts));
    repeat (case_bool_decide; simpl; try by intros [= _ <-]);
    try discriminate;
    try (match goal with |- context [if ?b then _ else _] => destruct b end;
         simpl; try discriminate; try by intros [= _ <-]);
    unfold bind, attempted; destruct (getNativeType v); simpl;
    try discriminate; by intros [= _ <-].
Qed.

Lemma some_M_binding {A} (f : A -> M bool) l :
  Forall (fun x => forall st b st', f x st = (Ok b, st') ->
                                    warn_binding st' = warn_binding st) l ->
  forall st b st', some_M f l st = (Ok b, st') ->
                   warn_binding st' = warn_binding st.
Proof.
  induction 1 as [|x l Hx _ IH]; intros st b st'; simpl.
  - by intros [= _ <-].
  - unfold bind. destruct (f x st) as [[[]|e] st1] eqn:Hrun; try discriminate.
    + intros [= _ <-]. by eapply Hx.
    + intros H%IH. rewrite H. by eapply Hx.
Qed.

(** On a normal return the binding of `warn` is the one found on entry. *)
Lemma validateType_restores_sink type :
  forall v silent st r st',
    validateType type v silent st = (Ok r, st') ->
    warn_binding st' = warn_binding st.
Proof.
  assert (forall d, (forall ts, type_ d = Some (TArray ts) ->
                       Forall (fun t => forall v silent st r st',
                                 validateType t v silent st = (Ok r, st') ->
                                 warn_binding st' = warn_binding st) ts) ->
            forall v silent st r st',
              validateType_body validateType d v silent st = (Ok r, st') ->
              warn_binding st' = warn_binding st) as Hbody.
  { intros d IH v silent st r st'. unfold validateType_body, bind at 1.
    destruct (type_stage validateType d v st) as [[checked|e] st1] eqn:Hstage;
      [|discriminate].
    assert (warn_binding st1 = warn_binding st) as <-.
    { revert Hstage. unfold type_stage.
      destruct (type_ d) as [[ | |c|ts|d'|y]|] eqn:Hty;
        try (by intros [= _ <-]); try discriminate;
        (destruct (_ && _); [by intros [= _ <-]|]); unfold bind at 1.
      - destruct (check_type _ _ _ _ st) as [[x|e] s1] eqn:Hcheck;
          [|discriminate].
        apply check_type_state in Hcheck as ->; [|discriminate].
        by intros [= _ <-].
      - unfold check_type, bind at 1.
        destruct (some_M _ ts st) as [[b|e] s1] eqn:Hsome; [|discriminate].
        intros [= _ <-]. revert Hsome. apply some_M_binding.
        eapply Forall_impl; [exact (IH ts Logic.eq_refl)|].
        intros t Ht s b' s'. unfold bind.
        destruct (validateType t v true s) as [[x|e] s2] eqn:Hrun;
          [|discriminate].
        intros [= _ <-]. by eapply Ht.
      - destruct (check_type _ _ _ _ st) as [[x|e] s1] eqn:Hcheck;
          [|discriminate].
        apply check_type_state in Hcheck as ->; [|discriminate].
        by intros [= _ <-].
      - destruct (check_type _ _ _ _ st) as [[x|e] s1] eqn:Hcheck;
          [|discriminate].
        apply check_type_state in Hcheck as ->; [|discriminate].
        by intros [= _ <-]. }
    destruct checked as [[[] e]|].
    - apply validator_stage_binding.
    - apply type_failure_binding.
    - by intros [= _ <-]. }
  induction type as [ | |c|ts IH|d _ IH|x] using tyval_nested_ind;
    intros v silent st r st'; rewrite validateType_unfold; apply Hbody; simpl;
    try (intros ? ?; discriminate).
  - by intros ts' [= <-].
  - exact IH.
Qed.

(** C4 fails on the code. [const oldWarn = warn] and [warn = oldWarn]
    enclose the call of the validator with no [try]/[finally]: when the
    validator of [custom(expectString)] raises, `warn` is left bound to the
    buffering closure, and the warning of the next, unrelated validation
    goes to that buffer instead of the console. *)
Theorem C4_buffer_leaks_when_validator_throws :
  exists d leaked,
    custom (Some expectString) "custom validation failed" = Ok d
    /\ validateType (TPlain d) (VNum (Int 5)) false init
       = (Throw (TypeError "expected a string"), leaked)
    /\ warn_binding init = Original
    /\ warn_binding leaked = Buffer 0
    /\ console (snd (validateType (TCtor CString) (VNum (Int 5)) false leaked))
       = []
    /\ console (snd (validateType (TCtor CString) (VNum (Int 5)) false init))
       <> [].
Proof.
  do 2 eexists. split; [reflexivity|]. split; [reflexivity|].
  repeat split; try reflexivity. discriminate.
Qed.

(** * Further properties of the engine *)

(** ** Descriptors typed by one constructor *)

Lemma single_ctor_check d c v st :
  type_ d = Some (TCtor c) ->
  negb (default false (required d)) && Js.is_undefined v = false ->
  type_stage validateType d v st
  = (valid <- attempted (native_check c v) ;;
     ret (Some (valid, ctor_name c))) st.
Proof.
  intros Hty Hgo. unfold type_stage. rewrite Hty, Hgo.
  unfold bind at 1. rewrite (check_type_ctor d c v st Hty).
  unfold bind. by destruct (attempted _ st) as [[]].
Qed.

Lemma single_ctor_stage d c v st :
  type_ d = Some (TCtor c) ->
  negb (default false (required d)) && Js.is_undefined v = false ->
  native_check c v = Js.Got (accepted_by c v) ->
  type_stage validateType d v st
  = (Ok (Some (accepted_by c v, ctor_name c)), st).
Proof.
  intros Hty Hgo Hcheck. rewrite (single_ctor_check d c v st Hty Hgo).
  unfold bind. by rewrite Hcheck.
Qed.

Lemma single_ctor_passes d c v silent st :
  type_ d = Some (TCtor c) ->
  negb (default false (required d)) && Js.is_undefined v = false ->
  (exists st', validateType (TPlain d) v silent st = (Ok (RBool true), st'))
  <-> accepted_by c v = true
      /\ (forall f, validator d = Some f ->
            exists st', f (ctx_of d) [v] (buffered st) = (Ok true, st')).
Proof.
  intros Hty Hgo. rewrite validateType_unfold.
  unfold validateType_body, bind at 1. simpl.
  rewrite (single_ctor_check d c v st Hty Hgo). unfold bind, attempted.
  unfold accepted_by. destruct (native_check c v) as [[]|msg|f]; simpl.
  - destruct (validator d) as [f|] eqn:Hf.
    + rewrite (validator_stage_true d v silent st f Hf). split.
      * intros H. split; [done|]. by intros f' [= <-].
      * intros [_ H]. by apply H.
    + unfold validator_stage. rewrite Hf. split; [|by eexists].
      intros _. split; [done|]. intros f [=].
  - split; [|intros [? _]; discriminate].
    intros [st' H]. by apply type_failure_not_true in H.
  - split; [intros [? ?]|intros [? _]]; discriminate.
  - split; [intros [? ?]|intros [? _]]; discriminate.
Qed.

(** X1. A descriptor typed by one constructor: a value, other than
    undefined on a descriptor that is not required, and one the name of
    whose constructor is read without a call of a function that the value
    holds, passes validation exactly when the check of the constructor is
    made and accepts it and the validator, if there is one, called on the
    value with `warn` buffered, returns true. *)
Theorem X1_type_then_validator (d : descriptor) (c : ctor) (v : value)
    (silent : bool) (st : state) :
  type_ d = Some (TCtor c) ->
  required d = Some true \/ v <> VUndefined ->
  readable v = true ->
  (exists st', validateType (TPlain d) v silent st = (Ok (RBool true), st'))
  <-> accepted_by c v = true
      /\ (forall f, validator d = Some f ->
            exists st', f (ctx_of d) [v] (buffered st) = (Ok true, st')).
Proof.
  intros Hty Hgo _. apply single_ctor_passes; [done|].
  destruct Hgo as [-> | Hv]; [reflexivity|].
  destruct v; try done. all: by rewrite andb_false_r.
Qed.

Lemma X1_witness :
  (exists st', validateType (TPlain integer_base) (VNum (Int 3)) true init
               = (Ok (RBool true), st'))
  <-> accepted_by CNumber (VNum (Int 3)) = true
      /\ (forall f, validator integer_base = Some f ->
            exists st', f (ctx_of integer_base) [VNum (Int 3)] (buffered init)
                        = (Ok true, st')).
Proof.
  apply (X1_type_then_validator integer_base CNumber (VNum (Int 3)) true init).
  - reflexivity.
  - right. discriminate.
  - reflexivity.
Defined.

Lemma named_native_rejects_undefined c :
  named_native c -> accepted_by c VUndefined = false.
Proof.
  unfold named_native.
  intros [-> | [-> | [-> | [-> | [-> | ->]]]]]; reflexivity.
Qed.

(** X2. On a descriptor typed by one of the six named constructors,
    undefined passes as long as the descriptor is not required; once
    [isRequired] has been read it is rejected, with a result and no
    exception. *)
Theorem X2_isRequired_rejects_undefined (d : descriptor) (c : ctor)
    (silent : bool) (st : state) :
  type_ d = Some (TCtor c) -> named_native c -> required d <> Some true ->
  validateType (TPlain d) VUndefined silent st = (Ok (RBool true), st)
  /\ exists r st',
       validateType (TPlain (isRequired d)) VUndefined silent st = (Ok r, st')
       /\ is_true r = false.
Proof.
  intros Hty Hc Hreq. split.
  - apply short_circuit; [|done]. exists (TCtor c). by split.
  - rewrite validateType_unfold. unfold validateType_body, bind at 1. simpl.
    rewrite (single_ctor_stage (isRequired d) c VUndefined st);
      [|done|done|by apply (native_check_got c VUndefined None)].
    rewrite named_native_rejects_undefined by done.
    unfold type_failure, template, attempted, bind. simpl.
    destruct silent; simpl; [by eexists _, _|].
    rewrite warn_run. simpl. by eexists _, _.
Qed.

Lemma X2_witness :
  validateType (TPlain integer_base) VUndefined true init
  = (Ok (RBool true), init)
  /\ exists r st',
       validateType (TPlain (isRequired integer_base)) VUndefined true init
       = (Ok r, st')
       /\ is_true r = false.
Proof.
  apply (X2_isRequired_rejects_undefined integer_base CNumber true init).
  - reflexivity.
  - right. by left.
  - discriminate.
Defined.

(** ** Native types *)

Lemma some_M_pure {A} (f : A -> M bool) l :
  Forall (fun x => exists o, forall st, f x st = (o, st)) l ->
  exists o, forall st, some_M f l st = (o, st).
Proof.
  induction 1 as [|x l [o Ho] _ [o' IH]]; simpl; [by eexists|].
  unfold bind. destruct o as [[]|e].
  - exists (Ok true). intros st. by rewrite Ho.
  - exists o'. intros st. rewrite Ho. apply IH.
  - exists (Throw e). intros st. by rewrite Ho.
Qed.

(** The two modes on an object literal [{ type }] whose type stage neither
    reads nor changes the state. *)
Lemma wrapped_modes t v :
  (exists o, forall st, type_stage validateType (wrap t) v st = (o, st)) ->
  exists o,
    (forall st, validateType_body validateType (wrap t) v true st = (o, st))
    /\ (forall st, validateType_body validateType (wrap t) v false st
                   = match o with
                     | Ok (RMsg msg) => (Ok (RBool false), emit msg st)
                     | _ => (o, st)
                     end)
    /\ o <> Ok (RBool false).
Proof.
  intros [o Ho]. unfold validateType_body, bind.
  destruct o as [[[[] e]|]|e].
  - exists (Ok (RBool true)). repeat split; try done; intros st; by rewrite Ho.
  - unfold type_failure, template, attempted, bind. simpl.
    destruct (Js.to_string v) as [s|msg|f]; simpl.
    + eexists (Ok (RMsg _)). repeat split; try done; intros st; rewrite Ho;
        [reflexivity|]. by rewrite warn_run.
    + eexists (Throw _). repeat split; try done; intros st; by rewrite Ho.
    + eexists (Throw _). repeat split; try done; intros st; by rewrite Ho.
  - exists (Ok (RBool true)). repeat split; try done; intros st; by rewrite Ho.
  - exists (Throw e). repeat split; try done; intros st; by rewrite Ho.
Qed.

Lemma native_modes type :
  native type -> forall v,
  exists o,
    (forall st, validateType type v true st = (o, st))
    /\ (forall st, validateType type v false st
                   = match o with
                     | Ok (RMsg msg) => (Ok (RBool false), emit msg st)
                     | _ => (o, st)
                     end)
    /\ o <> Ok (RBool false).
Proof.
  induction type as [ | |c|ts IH|d _ _|x] using tyval_nested_ind;
    intros Hnative v; try (by inversion Hnative).
  - destruct (wrapped_modes TNull v) as (o & H); [by eexists|].
    exists o. by rewrite !validateType_unfold.
  - destruct (wrapped_modes (TCtor c) v) as (o & H).
    { unfold type_stage. cbn [wrap type_ required default negb andb].
      destruct (Js.is_undefined v); [by eexists|].
      destruct (native_check c v) as [valid|msg|f] eqn:Hcheck;
        eexists; intros st; unfold bind at 1;
        rewrite (check_type_ctor (wrap (TCtor c)) c v st) by done;
        unfold bind, attempted; by rewrite Hcheck. }
    exists o. by rewrite !validateType_unfold.
  - destruct (wrapped_modes (TArray ts) v) as (o & H).
    { unfold type_stage. cbn [wrap type_ required default negb andb].
      destruct (Js.is_undefined v); [by eexists|].
      unfold check_type.
      destruct (some_M_pure
                  (fun type => r <- validateType type v true ;; ret (is_true r))
                  ts) as [o Ho].
      { inversion Hnative as [| |? Hts]; subst.
        apply Forall_forall. intros t Ht.
        destruct (proj1 (Forall_forall _ _) IH t Ht
                    (proj1 (Forall_forall _ _) Hts t Ht) v) as (o & Ho & _).
        destruct o as [r|e]; eexists; intros st; unfold bind; by rewrite Ho. }
      destruct o as [b|e]; eexists; intros st; unfold bind at 1 2;
        by rewrite Ho. }
    exists o. by rewrite !validateType_unfold.
Qed.

(** X3. Validation against a native type (null, a constructor, an array of
    native types): the silent call leaves the state exactly as it was and
    its outcome does not depend on the state; the loud call returns true
    where the silent one does, and false, after one call of `warn` with
    the message the silent call returns, where the silent one returns a
    message; [VueTypes.utils.validate] gives the same verdict as a boolean,
    the state untouched. *)
Theorem X3_native_modes (type : tyval) (v : value) :
  native type ->
  exists o,
    (forall st, validateType type v true st = (o, st))
    /\ (forall st, validateType type v false st
                   = match o with
                     | Ok (RMsg msg) => (Ok (RBool false), emit msg st)
                     | _ => (o, st)
                     end)
    /\ (forall st, utils_validate v type st
                   = (match o with
                      | Ok r => Ok (is_true r)
                      | Throw e => Throw e
                      end, st))
    /\ o <> Ok (RBool false).
Proof.
  intros Hnative. destruct (native_modes type Hnative v) as (o & Hs & Hl & Ho).
  exists o. repeat split; try done.
  intros st. unfold utils_validate, bind. rewrite Hs. by destruct o.
Qed.

Lemma X3_witness :
  exists o,
    (forall st, validateType (TArray [TCtor CString; TCtor CNumber])
                  (VBool true) true st = (o, st))
    /\ o <> Ok (RBool true).
Proof.
  destruct (X3_native_modes (TArray [TCtor CString; TCtor CNumber]) (VBool true))
    as (o & Hs & _).
  - repeat constructor.
  - exists o. split; [exact Hs|]. intros ->. specialize (Hs init). discriminate.
Defined.

(** ** What [validateType] and [def] leave alone *)

(** X4. When [validateType] returns, in either mode and whatever the
    validators did, `warn` is bound to what it was bound to on entry. *)
Theorem X4_warn_restored_on_return (type : tyval) (v : value) (silent : bool)
    (st st' : state) (r : vresult) :
  validateType type v silent st = (Ok r, st') ->
  warn_binding st' = warn_binding st.
Proof. apply validateType_restores_sink. Qed.

Lemma X4_witness :
  warn_binding
    (snd (validateType (TPlain (shape [("id", TCtor CNumber)]))
            (VObj 1 [("id", VStr "x")]) false init))
  = warn_binding init.
Proof.
  apply (X4_warn_restored_on_return
           (TPlain (shape [("id", TCtor CNumber)])) (VObj 1 [("id", VStr "x")])
           false init _ (RBool false)).
  vm_compute. reflexivity.
Defined.

Lemma def_keeps (d : descriptor) x st d' st' :
  def d x st = (Ok d', st') ->
  exists v, d' = set_default v d /\ warn_binding st' = warn_binding st.
Proof.
  unfold def. destruct (_ && _).
  - intros [= <- <-]. exists (default_ d). by destruct d.
  - unfold bind at 1. destruct (isFunction x).
    + simpl. destruct (isArray x); [|destruct (isPlainObject x)];
        intros [= <- <-]; by eexists.
    + unfold bind at 1.
      destruct (validateType (TPlain d) x false st) as [[r|e] s1] eqn:Hv;
        [|discriminate].
      apply validateType_restores_sink in Hv. simpl.
      destruct (result_truthy r); simpl.
      * destruct (isArray x); [|destruct (isPlainObject x)];
          intros [= <- <-]; by eexists.
      * unfold template, attempted, bind.
        destruct (Js.to_string x); [|discriminate..].
        simpl. rewrite warn_run. simpl. intros [= <- <-].
        exists (default_ d). rewrite emit_binding. split; [by destruct d|done].
Qed.

(** X5. When [def] returns, the descriptor it returns differs from the
    receiver in `default` at most: name, `type`, `required`, `validator`,
    the `validate` method and the loose flag are those of the receiver; and
    `warn` is bound as before the call. *)
Theorem X5_def_touches_default_only (d d' : descriptor) (x : value)
    (st st' : state) :
  def d x st = (Ok d', st') ->
  _vueTypes_name d' = _vueTypes_name d
  /\ type_ d' = type_ d
  /\ required d' = required d
  /\ validator d' = validator d
  /\ validate_ d' = validate_ d
  /\ _vueTypes_isLoose d' = _vueTypes_isLoose d
  /\ warn_binding st' = warn_binding st.
Proof.
  intros (v & -> & Hbinding)%def_keeps. by repeat split.
Qed.

Lemma X5_witness :
  exists d' st',
    def integer_base (VStr "x") init = (Ok d', st')
    /\ type_ d' = type_ integer_base
    /\ warn_binding st' = warn_binding init.
Proof.
  do 2 eexists. split; [reflexivity|].
  destruct (X5_def_touches_default_only integer_base _ (VStr "x") init _
              Logic.eq_refl) as (_ & Hty & _ & _ & _ & _ & Hw).
  by split.
Defined.

(** ** The stub of [validate] *)

Lemma built_stub d : built d -> validate_ d = ValidateStub.
Proof.
  induction 1 as [fn warnMsg d H|arr d H|arr d H|c|t|t|obj| |d _ IH|d _ IH
                  |d x st d' st' _ IH Hdef]; try reflexivity; try exact IH.
  - unfold custom in H. destruct fn; [|discriminate]. by injection H as <-.
  - unfold oneOf in H. destruct arr; try discriminate.
    destruct (Js.array_join _ _); [|discriminate..].
    destruct (as_types _); [|discriminate..]. by injection H as <-.
  - unfold oneOfType in H. destruct arr; try discriminate.
    destruct (foldl _ _ _) as [flag checks].
    destruct (negb flag); by injection H as <-.
  - apply def_keeps in Hdef as (v & -> & _). exact IH.
Qed.

(** X6. On a descriptor returned by [custom], [oneOf], [oneOfType],
    [instanceOf], [arrayOf], [objectOf], [shape] or [integer], also after
    [isRequired], [loose] and [def], the method [validate] does not raise
    and does not install the function it is given: it calls `warn` once and
    returns the descriptor as it is. *)
Theorem X6_validate_not_supported (d : descriptor) (fn : validator_fn)
    (st : state) :
  built d ->
  exists msg, validate d fn st = (Ok d, emit msg st).
Proof.
  intros Hstub%built_stub. unfold validate, bind. rewrite Hstub.
  rewrite warn_run. by eexists.
Qed.

Lemma X6_witness :
  exists msg,
    validate (loose (isRequired (shape [("id", TCtor CNumber)]))) stubTrue init
    = (Ok (loose (isRequired (shape [("id", TCtor CNumber)]))), emit msg init).
Proof.
  apply X6_validate_not_supported.
  apply built_loose, built_isRequired, built_shape.
Defined.

(** ** [custom] *)

Lemma alter_last {A} (f : A -> A) (l : list A) x :
  alter f (length l) (l ++ [x]) = l ++ [f x].
Proof. induction l as [|y l IH]; [done|]. simpl. f_equal. exact IH. Qed.

Lemma lookup_last {A} (l : list A) x : (l ++ [x]) !! length l = Some x.
Proof. induction l as [|y l IH]; simpl; done. Qed.

Lemma insert_last {A} (l : list A) x y : <[length l := y]> (l ++ [x]) = l ++ [y].
Proof. induction l as [|z l IH]; [done|]. simpl. f_equal. exact IH. Qed.

(** The validator stage when the validator calls `warn` once, or not at
    all, and does nothing else. *)
Lemma validator_stage_one_warning d f v silent st (b : bool) line :
  validator d = Some f ->
  (forall s, f (ctx_of d) [v] s = (Ok b, if b then s else emit line s)) ->
  validator_stage d v silent st
  = if b then (Ok (RBool true), after_buffer st)
    else if silent then (Ok (RMsg ("* " +:+ line)), after_buffer st)
    else (Ok (RBool false), emit ("* " +:+ line) (after_buffer st)).
Proof.
  intros Hf Hrun. unfold validator_stage, bind. rewrite Hf. simpl.
  rewrite Hrun. destruct b; [reflexivity|].
  unfold emit at 1, warn. simpl. rewrite alter_last. simpl.
  rewrite lookup_last. simpl. rewrite insert_last.
  destruct silent; [reflexivity|]. unfold emit, warn, after_buffer. simpl.
  by destruct (warn_binding st).
Qed.

(** X7. Validation against [custom(fn, warnMsg)], for a function [fn] that
    only computes a boolean: it returns what [fn] returns; where [fn]
    returns false, the silent call returns the line
    [* <name> - <warnMsg>] and the loud call passes that line to `warn`
    once. No message of the validator reaches the sink in silent mode. *)
Theorem X7_custom_diagnostic (fn : predicate) (warnMsg : string)
    (d : descriptor) (v : value) (b : bool) (st : state) :
  custom (Some fn) warnMsg = Ok d ->
  (forall s, pred_call fn [v] s = (Ok b, s)) ->
  let line := "* " +:+ show_name (_vueTypes_name d) +:+ " - " +:+ warnMsg in
  validateType (TPlain d) v true st
  = (Ok (if b then RBool true else RMsg line), after_buffer st)
  /\ validateType (TPlain d) v false st
     = (Ok (RBool b), if b then after_buffer st else emit line (after_buffer st)).
Proof.
  intros Hd Hpure line. injection Hd as <-.
  assert (forall silent,
            validateType (TPlain (toType
              (if bool_decide (pred_name fn = EmptyString)
               then "<<anonymous function>>" else pred_name fn)
              (literal None
                 (Some (fun this args =>
                    valid <- pred_call fn [arg0 args] ;;
                    (if valid then ret tt
                     else warn (show_name (this_name this) +:+ " - "
                                +:+ warnMsg)) ;;;
                    ret valid))) false)) v silent st
            = if b then (Ok (RBool true), after_buffer st)
              else if silent then (Ok (RMsg line), after_buffer st)
              else (Ok (RBool false), emit line (after_buffer st))) as H.
  { intros silent. rewrite validateType_unfold.
    unfold validateType_body, type_stage, bind at 1. simpl.
    erewrite validator_stage_one_warning; [reflexivity|reflexivity|].
    intros s. unfold bind. change (arg0 [v]) with v. rewrite Hpure.
    destruct b; simpl; [reflexivity|]. by rewrite warn_run. }
  split; rewrite H; by destruct b.
Qed.

Lemma X7_witness :
  let fn := Predicate "isString"
              (fun args => ret (match arg0 args with
                                | VStr _ => true | _ => false end)) in
  exists d,
    custom (Some fn) "custom validation failed" = Ok d
    /\ validateType (TPlain d) (VNum (Int 0)) true init
       = (Ok (RMsg "* isString - custom validation failed"), after_buffer init).
Proof.
  intros fn. eexists. split; [reflexivity|].
  exact (proj1 (X7_custom_diagnostic fn "custom validation failed" _
                  (VNum (Int 0)) false init Logic.eq_refl
                  (fun s => Logic.eq_refl))).
Defined.

(** ** [oneOf]: construction and members *)

Lemma join_with_Got {A} (f : A -> Js.attempt string) sep l :
  (exists s, Js.join_with f sep l = Js.Got s)
  <-> Forall (fun x => exists s, f x = Js.Got s) l.
Proof.
  induction l as [|x l IH]; simpl.
  - split; [constructor | by eexists].
  - rewrite Forall_cons, <- IH. destruct (f x) as [s|msg|g].
    + destruct l as [|y l]; [split; [by split; eexists | by eexists]|].
      destruct (Js.join_with f sep (y :: l)).
      * split; [by split; eexists | by eexists].
      * split; [by intros [? ?] | by intros [_ [? ?]]].
      * split; [by intros [? ?] | by intros [_ [? ?]]].
    + split; [by intros [? ?] | by intros [[? ?] _]].
    + split; [by intros [? ?] | by intros [[? ?] _]].
Qed.

Lemma join_with_Raises {A} (f : A -> Js.attempt string) sep pre x post msg :
  Forall (fun y => exists s, f y = Js.Got s) pre -> f x = Js.Raises msg ->
  Js.join_with f sep (pre ++ x :: post) = Js.Raises msg.
Proof.
  intros Hpre Hx. induction pre as [|y pre IH]; simpl.
  - by rewrite Hx.
  - apply Forall_cons in Hpre as [[s Hs] Hpre]. rewrite Hs.
    specialize (IH Hpre).
    destruct (pre ++ x :: post) eqn:Hl; [by destruct pre|].
    by rewrite IH.
Qed.

Lemma array_join_Got sep arr :
  (exists s, Js.array_join sep arr = Js.Got s) <-> Forall converts arr.
Proof.
  unfold Js.array_join. rewrite join_with_Got.
  apply Forall_proper; [|done]. intros x. unfold converts.
  destruct x; simpl; try done; split; by eexists.
Qed.

(** X9. [oneOf] raises its own TypeError on what is not an array. On an
    array it returns a descriptor only if every member converts to a string,
    the message being built with [join] when the descriptor is made; so it
    does, for members without a [constructor] of their own, whenever every
    member converts. The first member whose conversion raises (a Symbol, an
    array holding one, an object whose own [toString] and [valueOf] are not
    functions) makes [oneOf] raise that TypeError. *)
Theorem X9_oneOf_construction (a : value) :
  (isArray a = false ->
   oneOf a = Throw (TypeError
                      "[VueTypes error]: You must provide an array as argument"))
  /\ (forall l arr, a = VArr l arr ->
        ((exists d, oneOf a = Ok d) -> Forall converts arr)
        /\ (Forall (fun x => stock x = true) arr -> Forall converts arr ->
            exists d, oneOf a = Ok d)
        /\ (forall pre x post msg,
              arr = pre ++ x :: post -> Forall converts pre ->
              Js.to_string x = Js.Raises msg ->
              oneOf a = Throw (TypeError msg))).
Proof.
  split.
  - by destruct a.
  - intros l arr ->. split; [|split].
    + intros [d Hd]. apply (array_join_Got (dq +:+ ", " +:+ dq)).
      unfold oneOf in Hd. by destruct (Js.array_join _ _); [eexists|..].
    + intros Hstock Hall.
      apply (array_join_Got (dq +:+ ", " +:+ dq)) in Hall as [s Hs].
      unfold oneOf. rewrite Hs, (allowedTypes_spec arr Hstock), as_types_native.
      by eexists.
    + intros pre x post msg -> Hpre Hx. unfold oneOf, Js.array_join.
      rewrite (join_with_Raises _ _ pre x post msg); [reflexivity| |].
      * eapply Forall_impl; [exact Hpre|]. intros y [s Hs].
        destruct y; simpl in *; eauto.
      * destruct x; simpl in *; try discriminate; exact Hx.
Qed.

Lemma X9_witness :
  (exists d, oneOf (VArr 0 [VStr "a"; VNull; VNum (Int 1)]) = Ok d)
  /\ oneOf (VArr 0 [VStr "a"; VSym 0])
     = Throw (TypeError "Cannot convert a Symbol value to a string")
  /\ oneOf (VArr 0 [VObj 1 [("toString", VNum (Int 1))]])
     = Throw (TypeError "Cannot convert object to primitive value").
Proof.
  split; [|split].
  - apply (proj1 (proj2 (proj2 (X9_oneOf_construction _) 0 _ Logic.eq_refl))).
    + repeat constructor.
    + repeat constructor; by eexists.
  - apply (proj2 (proj2 (proj2 (X9_oneOf_construction _) 0 _ Logic.eq_refl))
             [VStr "a"] (VSym 0) []); [reflexivity| |reflexivity].
    repeat constructor. by eexists.
  - apply (proj2 (proj2 (proj2 (X9_oneOf_construction _) 0 _ Logic.eq_refl))
             [] (VObj 1 [("toString", VNum (Int 1))]) []);
      [reflexivity|constructor|reflexivity].
Defined.

Lemma elem_of_distinct_in_order c l : c ∈ distinct_in_order l <-> c ∈ l.
Proof.
  induction l as [|x l IH]; simpl; [done|].
  rewrite !elem_of_cons, list_elem_of_filter, IH.
  destruct (decide (c = x)); tauto.
Qed.

Lemma own_constructor_accepts v :
  native_kind v ->
  exists c, builtin v = Some c /\ accepted_by c v = true.
Proof.
  destruct v; try done; simpl; intros Hkind;
    try (eexists; split; reflexivity).
  unfold builtin, accepted_by, native_check. simpl.
  destruct (Js.own props "constructor"); [discriminate|].
  eexists. split; reflexivity.
Qed.

Lemma strict_eq_refl v :
  native_kind v -> v <> VNum NaN -> Js.strict_eq v v = true.
Proof.
  destruct v as [ | |b|[|s|z|text]| | | | | | ]; try done; intros _ _; simpl;
    by apply bool_decide_eq_true.
Qed.

Lemma NaN_not_included arr : Js.includes_strict arr (VNum NaN) = false.
Proof.
  unfold Js.includes_strict. induction arr as [|a arr IH]; [done|].
  simpl. rewrite IH. by destruct a as [ | | |[]| | | | | | ].
Qed.

(** What [oneOf] returns, by its fields. *)
Lemma oneOf_fields l arr d :
  oneOf (VArr l arr) = Ok d ->
  exists f ts,
    validator d = Some f /\ required d = None
    /\ as_types (allowedTypes arr) = Js.Got ts
    /\ type_ d = Some (if bool_decide (0 < length ts) then TArray ts else TNull)
    /\ forall v s, exists s',
         f (ctx_of d) [v] s = (Ok (Js.includes_strict arr v), s').
Proof.
  unfold oneOf. destruct (Js.array_join _ arr) as [joined| |]; try discriminate.
  destruct (as_types _) as [ts| |]; try discriminate.
  intros [= <-]. do 2 eexists. repeat split. intros v s. unfold bind.
  change (arg0 [v]) with v. destruct (Js.includes_strict arr v); simpl;
    [by eexists|]. rewrite warn_run. by eexists.
Qed.

(** X8. A member of the array given to [oneOf] that is a boolean, a number
    other than NaN, a string, a function, an array or a plain object passes
    validation against the descriptor, in both modes, when no member of the
    array has a [constructor] of its own. NaN passes against no descriptor
    that [oneOf] returns. *)
Theorem X8_oneOf_accepts_its_members (l : loc) (arr : list value)
    (d : descriptor) (v : value) (silent : bool) (st : state) :
  oneOf (VArr l arr) = Ok d ->
  (Forall (fun a => stock a = true) arr ->
   v ∈ arr -> native_kind v -> v <> VNum NaN ->
   exists st', validateType (TPlain d) v silent st = (Ok (RBool true), st'))
  /\ fst (validateType (TPlain d) (VNum NaN) silent st) <> Ok (RBool true).
Proof.
  intros Hd.
  assert (Forall converts arr) as Hjoin.
  { apply (array_join_Got (dq +:+ ", " +:+ dq)).
    unfold oneOf in Hd. by destruct (Js.array_join _ _); [eexists|..]. }
  destruct (oneOf_fields l arr d Hd) as (f & ts & Hf & Hreq & Hts & Hty & Hrun).
  split.
  - intros Hstock Hin Hkind Hnan.
    rewrite (allowedTypes_spec arr Hstock), as_types_native in Hts.
    injection Hts as <-.
    destruct (own_constructor_accepts v Hkind) as (c & Hc & Hacc).
    assert (c ∈ distinct_in_order (omap builtin arr)) as Hcs.
    { apply elem_of_distinct_in_order. apply list_elem_of_omap. eauto. }
    rewrite bool_decide_eq_true_2 in Hty
      by (rewrite length_map;
          destruct (distinct_in_order _); [by apply elem_of_nil in Hcs|simpl; lia]).
    destruct (proj1 (Forall_forall _ _) Hjoin v Hin) as [s Hs].
    apply (ctor_union_passes d (distinct_in_order (omap builtin arr)) v silent
             st s f);
      try done; [by destruct v|]. split.
    + apply existsb_exists. exists c. split; [by apply list_elem_of_In|done].
    + destruct (Hrun v (buffered st)) as [s' Hs']. exists s'. rewrite Hs'.
      f_equal. f_equal. apply existsb_exists. exists v.
      split; [by apply list_elem_of_In | by apply strict_eq_refl].
  - intros Hpass.
    destruct (validateType _ _ _ _) as [o st'] eqn:Hrun'. simpl in Hpass.
    subst o.
    apply (passes_through_validator d (VNum NaN) silent st st' f Hf
             Logic.eq_refl) in Hrun' as (s & s' & Hs).
    destruct (Hrun (VNum NaN) s) as [s2 Hs2].
    rewrite Hs2, NaN_not_included in Hs. discriminate.
Qed.

Lemma X8_witness :
  exists d st',
    oneOf (VArr 0 [VNum (Int 0); VNum (Int 1); VStr "string"]) = Ok d
    /\ validateType (TPlain d) (VStr "string") true init
       = (Ok (RBool true), st').
Proof.
  destruct (proj1 (X8_oneOf_accepts_its_members 0
                     [VNum (Int 0); VNum (Int 1); VStr "string"] _
                     (VStr "string") true init Logic.eq_refl))
    as [st' H].
  - repeat constructor.
  - apply list_elem_of_In. simpl. tauto.
  - exact I.
  - discriminate.
  - by eexists _, st'.
Defined.

(** ** [oneOfType] on constructors, [instanceOf] *)

Lemma nativeChecks_ctors cs : forall acc,
  foldl nativeChecks_step acc (map TCtor cs) = (fst acc, snd acc ++ map TCtor cs).
Proof.
  induction cs as [|c cs IH]; intros [flag ret]; simpl.
  - by rewrite app_nil_r.
  - rewrite IH. simpl. by rewrite <- app_assoc.
Qed.

Lemma seen_ctor c seen :
  existsb (same_type (TCtor c)) (map TCtor seen) = bool_decide (c ∈ seen).
Proof.
  induction seen as [|x seen IH]; simpl.
  - reflexivity.
  - rewrite IH. apply eq_true_iff_eq.
    rewrite orb_true_iff, !bool_decide_eq_true, elem_of_cons. tauto.
Qed.

Lemma remove_duplicates_ctors cs : forall seen,
  remove_duplicates (map TCtor seen) (map TCtor cs)
  = map TCtor (filter (fun c => c ∉ seen) (distinct_in_order cs)).
Proof.
  induction cs as [|c cs IH]; intros seen; [reflexivity|].
  simpl. rewrite seen_ctor. case_bool_decide as Hc.
  - rewrite filter_cons_False by (intros H; by apply H).
    rewrite IH. f_equal. rewrite list_filter_filter. apply list_filter_iff.
    intros c'. split; [|tauto]. intros H. split; [exact H|]. congruence.
  - rewrite filter_cons_True by exact Hc. simpl. f_equal.
    change [TCtor c] with (map TCtor [c]). rewrite <- map_app, IH. f_equal.
    rewrite list_filter_filter. apply list_filter_iff.
    intros c'. rewrite not_elem_of_app, not_elem_of_cons. split.
    + intros (? & ? & _). tauto.
    + intros (? & ?). split; [done|]. split; [done|]. apply not_elem_of_nil.
Qed.

Lemma ctor_union_plain d cs v silent st s :
  type_ d = Some (TArray (map TCtor cs)) -> validator d = None ->
  Js.is_undefined v = false -> Js.to_string v = Js.Got s ->
  (exists st', validateType (TPlain d) v silent st = (Ok (RBool true), st'))
  <-> existsb (fun c => accepted_by c v) cs = true.
Proof.
  intros Hty Hf Hv Hs. rewrite validateType_unfold.
  unfold validateType_body, type_stage, bind at 1. simpl.
  rewrite Hty, Hv, andb_false_r. unfold check_type, bind at 1 2.
  pose proof (union_of_ctors cs v st s) as Hunion.
  destruct (some_M _ (map TCtor cs) st) as [[[]|e] st1]; cbn [ret].
  - destruct (proj1 (Hunion st1 Hv Hs) Logic.eq_refl) as [-> ->].
    unfold validator_stage. rewrite Hf. simpl. split; eauto.
  - split.
    + intros [st' H]. by apply type_failure_not_true in H.
    + intros Hex.
      discriminate (proj2 (Hunion st Hv Hs) (conj Hex Logic.eq_refl)).
  - split; [intros [? ?]; discriminate|].
    intros Hex.
    discriminate (proj2 (Hunion st Hv Hs) (conj Hex Logic.eq_refl)).
Qed.

(** X10. [oneOfType] given an array of native constructors returns a
    descriptor without validator whose type is the list of the constructors,
    each kept at its first occurrence. A value other than undefined that
    converts to a string, and the name of whose constructor is read
    without a call of a function that it holds, passes validation against
    it exactly when one of the constructors accepts it; undefined
    passes. *)
Theorem X10_oneOfType_of_constructors (cs : list ctor) :
  exists d,
    oneOfType (TArray (map TCtor cs)) = Ok d
    /\ type_ d = Some (TArray (map TCtor (distinct_in_order cs)))
    /\ validator d = None
    /\ (forall silent st,
          validateType (TPlain d) VUndefined silent st = (Ok (RBool true), st))
    /\ forall v silent st,
         v <> VUndefined -> converts v -> readable v = true ->
         ((exists st',
             validateType (TPlain d) v silent st = (Ok (RBool true), st'))
          <-> exists c, c ∈ cs /\ accepted_by c v = true).
Proof.
  unfold oneOfType. rewrite nativeChecks_ctors. simpl.
  change (@nil tyval) with (map TCtor []) at 1.
  rewrite remove_duplicates_ctors.
  rewrite filter_all by (intros c; apply not_elem_of_nil).
  eexists. split; [reflexivity|]. split; [reflexivity|]. split; [reflexivity|].
  split.
  - intros silent st. apply short_circuit; [|discriminate].
    eexists. split; reflexivity.
  - intros v silent st Hv [s Hs] _.
    rewrite (ctor_union_plain _ (distinct_in_order cs) v silent st s);
      [|reflexivity|reflexivity|by destruct v|exact Hs].
    rewrite existsb_exists. split.
    + intros (c & Hc & Hacc). exists c. split; [|done].
      by apply elem_of_distinct_in_order, list_elem_of_In.
    + intros (c & Hc & Hacc). exists c. split; [|done].
      by apply list_elem_of_In, elem_of_distinct_in_order.
Qed.

Lemma X10_witness :
  exists d st',
    oneOfType (TArray (map TCtor [CString; CNumber; CString])) = Ok d
    /\ type_ d = Some (TArray [TCtor CString; TCtor CNumber])
    /\ validateType (TPlain d) (VNum (Int 5)) false init
       = (Ok (RBool true), st').
Proof.
  destruct (X10_oneOfType_of_constructors [CString; CNumber; CString])
    as (d & Hd & Hty & _ & _ & Hiff).
  assert (exists st', validateType (TPlain d) (VNum (Int 5)) false init
                      = (Ok (RBool true), st')) as [st' Hst'].
  { refine (proj2 (Hiff (VNum (Int 5)) false init _ _ _) _);
      [discriminate | by eexists | reflexivity |].
    exists CNumber. split; [|reflexivity].
    apply list_elem_of_In. simpl. tauto. }
  exists d, st'. split; [exact Hd|]. split; [exact Hty | exact Hst'].
Defined.

Lemma not_by_name_instanceof c v :
  ~ checked_by_name c -> accepted_by c v = Js.instanceof v c.
Proof.
  intros Hc. unfold accepted_by, native_check.
  assert (forall n,
            n ∈ ["Array"; "Object"; "String"; "Number"; "Boolean"; "Function"] ->
            bool_decide (ctor_name c = Some n) = false) as Hn.
  { intros n Hin. apply bool_decide_eq_false. intros Heq. apply Hc.
    by exists n. }
  by rewrite !Hn by (apply list_elem_of_In; simpl; tauto).
Qed.

(** X11. For a constructor whose name is none of Array, Object, String,
    Number, Boolean and Function, a value passes validation against
    [instanceOf] of it exactly when it is undefined or an instance of the
    constructor (its own class or one up the prototype chain). *)
Theorem X11_instanceOf (c : ctor) (v : value) (silent : bool) (st : state) :
  ~ checked_by_name c ->
  (exists st',
     validateType (TPlain (instanceOf (TCtor c))) v silent st
     = (Ok (RBool true), st'))
  <-> v = VUndefined \/ Js.instanceof v c = true.
Proof.
  intros Hc. destruct (Js.is_undefined v) eqn:Hv.
  - destruct v; try discriminate. rewrite short_circuit;
      [|eexists; split; reflexivity | discriminate].
    split; [by left | by eexists].
  - rewrite (single_ctor_passes _ c v silent st); [|reflexivity|exact Hv].
    rewrite not_by_name_instanceof by exact Hc. split.
    + intros [H _]. by right.
    + intros [-> | H]; [discriminate|]. split; [exact H|]. discriminate.
Qed.

Lemma X11_witness :
  exists st',
    validateType (TPlain (instanceOf (TCtor (CUser 1 (Some "Dog")))))
      (VInst 7 (CUser 1 (Some "Dog")) [CUser 0 (Some "Animal")]) false init
    = (Ok (RBool true), st').
Proof.
  apply (X11_instanceOf (CUser 1 (Some "Dog"))).
  - intros (n & [= <-] & Hn%list_elem_of_In). simpl in Hn.
    intuition discriminate.
  - right. reflexivity.
Defined.

(** ** [arrayOf] and [objectOf] *)

Lemma emit_all_buffer lines : forall i con logs log,
  i = length logs ->
  emit_all lines (State (Buffer i) con (logs ++ [log]))
  = State (Buffer i) con (logs ++ [log ++ lines]).
Proof.
  induction lines as [|line lines IH]; intros i con logs log ->; simpl.
  - by rewrite app_nil_r.
  - unfold emit_all in *. simpl. unfold emit at 2, warn. simpl.
    rewrite alter_last.
    rewrite IH by reflexivity. by rewrite <- app_assoc.
Qed.

(** The validator stage when the validator returns false after calling
    `warn` with [lines], and does nothing else. *)
Lemma validator_stage_warnings d f v silent st line lines :
  validator d = Some f ->
  f (ctx_of d) [v] (buffered st)
  = (Ok false, emit_all (line :: lines) (buffered st)) ->
  validator_stage d v silent st
  = if silent then (Ok (RMsg (diagnostic (line :: lines))), after_buffer st)
    else (Ok (RBool false),
          emit (diagnostic (line :: lines)) (after_buffer st)).
Proof.
  intros Hf Hrun. unfold validator_stage, bind. rewrite Hf. simpl.
  fold (buffered st). rewrite Hrun. unfold buffered.
  rewrite emit_all_buffer by reflexivity. simpl.
  rewrite lookup_last. simpl. rewrite insert_last.
  destruct silent; [reflexivity|]. unfold emit, warn, after_buffer. simpl.
  by destruct (warn_binding st).
Qed.

Lemma validator_stage_quiet d f v silent st :
  validator d = Some f ->
  f (ctx_of d) [v] (buffered st) = (Ok true, buffered st) ->
  validator_stage d v silent st = (Ok (RBool true), after_buffer st).
Proof.
  intros Hf Hrun. unfold validator_stage, bind. rewrite Hf. simpl.
  fold (buffered st). by rewrite Hrun.
Qed.

(** The callback of [every] in [arrayOf] and [objectOf], for a bare
    constructor. *)
Lemma member_ok_ctor c x st :
  member_ok (TCtor c) x st
  = if Js.is_undefined x then (Ok true, st)
    else match native_check c x with
         | Js.Got true => (Ok true, st)
         | Js.Got false =>
             match Js.to_string x with
             | Js.Got s => (Ok false, emit (mismatch c s) st)
             | Js.Raises msg => (Throw (TypeError msg), st)
             | Js.Outside f => (Throw (Outside f), st)
             end
         | Js.Raises msg => (Throw (TypeError msg), st)
         | Js.Outside f => (Throw (Outside f), st)
         end.
Proof.
  unfold member_ok, bind at 1. rewrite validateType_unfold.
  unfold validateType_body, bind at 1. destruct (Js.is_undefined x) eqn:Hx.
  - unfold type_stage. simpl. by rewrite Hx.
  - rewrite (single_ctor_check (typeToCheck_of (TCtor c)) c x st) by done.
    unfold bind, attempted.
    destruct (native_check c x) as [[]|msg|f]; try reflexivity.
    unfold type_failure, template, attempted, bind. simpl.
    destruct (Js.to_string x); simpl; try reflexivity.
    by rewrite warn_run.
Qed.

Lemma member_ok_true c x st st' :
  member_ok (TCtor c) x st = (Ok true, st')
  <-> element_ok c x = true /\ st' = st.
Proof.
  rewrite member_ok_ctor. unfold element_ok, accepted_by.
  destruct (Js.is_undefined x); simpl.
  - split; [by intros [= <-] | by intros [_ ->]].
  - destruct (native_check c x) as [[]|msg|f].
    + split; [by intros [= <-] | by intros [_ ->]].
    + split; [|by intros [? _]]. destruct (Js.to_string x); discriminate.
    + split; [discriminate | by intros [? _]].
    + split; [discriminate | by intros [? _]].
Qed.

Lemma members_pass c xs st st' :
  every_M (member_ok (TCtor c)) xs st = (Ok true, st')
  <-> forallb (element_ok c) xs = true /\ st' = st.
Proof.
  induction xs as [|x xs IH]; simpl.
  - unfold ret. split; [by intros [= <-] | by intros [_ ->]].
  - unfold bind.
    destruct (member_ok (TCtor c) x st) as [[[]|e] st1] eqn:Hx.
    + apply member_ok_true in Hx as [-> ->]. exact IH.
    + split; [discriminate|]. intros [Hall _].
      apply andb_true_iff in Hall as [Hok _].
      assert (member_ok (TCtor c) x st = (Ok true, st)) as H
        by by apply member_ok_true.
      congruence.
    + split; [discriminate|]. intros [Hall _].
      apply andb_true_iff in Hall as [Hok _].
      assert (member_ok (TCtor c) x st = (Ok true, st)) as H
        by by apply member_ok_true.
      congruence.
Qed.

Lemma members_fail c pre x post s st :
  forallb (element_ok c) pre = true -> element_ok c x = false ->
  stock x = true -> Js.to_string x = Js.Got s ->
  every_M (member_ok (TCtor c)) (pre ++ x :: post) st
  = (Ok false, emit (mismatch c s) st).
Proof.
  intros Hpre Hx Hstock Hs. induction pre as [|y pre IH]; simpl in *.
  - unfold bind. rewrite member_ok_ctor. unfold element_ok in Hx.
    apply orb_false_iff in Hx as [-> Hx].
    destruct (stock_reads x Hstock) as [n Hn].
    by rewrite (native_check_got c x n Hn), Hx, Hs.
  - apply andb_true_iff in Hpre as [Hy Hpre]. unfold bind.
    rewrite (proj2 (member_ok_true c y st st) (conj Hy Logic.eq_refl)).
    by apply IH.
Qed.

(** The loop of both validators: [every] over the values, then the
    warning of the validator itself. *)
Lemma iterate_true c values line st st' :
  (valid <- every_M (member_ok (TCtor c)) values ;;
   (if valid then ret tt else warn line) ;;; ret valid) st = (Ok true, st')
  <-> forallb (element_ok c) values = true /\ st' = st.
Proof.
  unfold bind.
  destruct (every_M (member_ok (TCtor c)) values st) as [[[]|e] st1] eqn:Hrun;
    simpl.
  - apply members_pass in Hrun as [Hall ->]. split; [by intros [= <-]|].
    by intros [_ ->].
  - rewrite warn_run. simpl. split; [discriminate|]. intros [Hall _].
    assert (every_M (member_ok (TCtor c)) values st = (Ok true, st)) as H
      by by apply members_pass.
    congruence.
  - split; [discriminate|]. intros [Hall _].
    assert (every_M (member_ok (TCtor c)) values st = (Ok true, st)) as H
      by by apply members_pass.
    congruence.
Qed.

Lemma iterate_false c pre x post s line st :
  forallb (element_ok c) pre = true -> element_ok c x = false ->
  stock x = true -> Js.to_string x = Js.Got s ->
  (valid <- every_M (member_ok (TCtor c)) (pre ++ x :: post) ;;
   (if valid then ret tt else warn line) ;;; ret valid) st
  = (Ok false, emit_all [mismatch c s; line] st).
Proof.
  intros Hpre Hx Hstock Hs. unfold bind.
  rewrite (members_fail c pre x post s st Hpre Hx Hstock Hs). simpl.
  by rewrite warn_run.
Qed.

(** X12. Validation of an array against [arrayOf(c)], [c] a constructor:
    where the names of the constructors of the elements are read without
    a call of a function that an element holds, it passes exactly when
    every element is undefined or accepted by [c].
    Where the first offending element converts to a string and has no
    [constructor] of its own, the diagnostic has two lines, the mismatch of
    that element and the message of [arrayOf]; the loud call passes them to
    `warn` as one message, after the validator has returned. A value that
    is neither undefined nor an array never passes. *)
Theorem X12_arrayOf (c : ctor) (l : loc) (xs : list value) (silent : bool)
    (st : state) :
  let d := arrayOf (TCtor c) in
  let own := "arrayOf - value must be an array of " +:+ dq
             +:+ show_expected (ctor_name c) +:+ dq in
  (forallb readable xs = true ->
   (validateType (TPlain d) (VArr l xs) silent st
    = (Ok (RBool true), after_buffer st)
    <-> forallb (element_ok c) xs = true))
  /\ (forall pre x post s,
        xs = pre ++ x :: post -> forallb (element_ok c) pre = true ->
        element_ok c x = false -> stock x = true ->
        Js.to_string x = Js.Got s ->
        validateType (TPlain d) (VArr l xs) silent st
        = if silent
          then (Ok (RMsg (diagnostic [mismatch c s; own])), after_buffer st)
          else (Ok (RBool false),
                emit (diagnostic [mismatch c s; own]) (after_buffer st)))
  /\ (forall v st', v <> VUndefined -> isArray v = false ->
        validateType (TPlain d) v silent st <> (Ok (RBool true), st')).
Proof.
  intros d own. split; [|split].
  - intros _. rewrite validateType_unfold. cbn [typeToCheck_of].
    unfold validateType_body, bind at 1.
    rewrite (single_ctor_stage d CArray (VArr l xs) st) by done. simpl.
    split.
    + intros H.
      assert (exists st', validator_stage d (VArr l xs) silent st
                          = (Ok (RBool true), st')) as Hex by eauto.
      apply (validator_stage_true d _ silent st _ Logic.eq_refl) in Hex
        as [st' Hrun].
      by apply iterate_true in Hrun as [Hall _].
    + intros Hall. apply (validator_stage_quiet d _ _ silent st Logic.eq_refl).
      by apply iterate_true.
  - intros pre x post s -> Hpre Hx Hstock Hs.
    rewrite validateType_unfold. cbn [typeToCheck_of].
    unfold validateType_body, bind at 1.
    rewrite (single_ctor_stage d CArray (VArr l _) st) by done. simpl.
    apply (validator_stage_warnings d _ _ silent st _ _ Logic.eq_refl).
    by apply iterate_false.
  - intros v st' Hv Harr H.
    assert (exists st', validateType (TPlain d) v silent st
                        = (Ok (RBool true), st')) as Hex by eauto.
    apply (single_ctor_passes d CArray v silent st Logic.eq_refl) in Hex
      as [Hacc _]; [|by destruct v].
    unfold accepted_by in Hacc. simpl in Hacc. congruence.
Qed.

Lemma X12_witness :
  validateType (TPlain (arrayOf (TCtor CNumber)))
    (VArr 0 [VNum (Int 0); VStr "1"; VNum (Int 2)]) true init
  = (Ok (RMsg (diagnostic
                 [mismatch CNumber "1";
                  "arrayOf - value must be an array of " +:+ dq +:+ "Number"
                  +:+ dq])),
     after_buffer init).
Proof.
  exact (proj1 (proj2 (X12_arrayOf CNumber 0
                         [VNum (Int 0); VStr "1"; VNum (Int 2)] true init))
           [VNum (Int 0)] (VStr "1") [VNum (Int 2)] "1"
           Logic.eq_refl Logic.eq_refl Logic.eq_refl Logic.eq_refl
           Logic.eq_refl).
Defined.

Lemma own_values_props l props :
  NoDup (map fst props) -> own_values (VObj l props) = Some (map snd props).
Proof.
  intros Hnodup. simpl. f_equal.
  induction props as [|[k x] props IH]; [reflexivity|].
  simpl in *. apply NoDup_cons in Hnodup as [Hk Hnodup].
  rewrite bool_decide_eq_true_2 by reflexivity. simpl. f_equal.
  rewrite <- IH by exact Hnodup. apply map_ext_in. intros key Hin.
  rewrite bool_decide_eq_false_2; [reflexivity|].
  intros ->. by apply Hk, list_elem_of_In.
Qed.

(** X13. Validation of a plain object, one without a key [constructor] of
    its own, against [objectOf(c)], [c] a constructor: where the names of
    the constructors of the values it holds are read without a call of a
    function that such a value holds, it passes exactly when the value of
    every own key is undefined or accepted by [c]. Where
    the first offending value in key order converts to a string and has no
    [constructor] of its own, the diagnostic has two lines, the mismatch of
    that value and the message of [objectOf]. A value that is neither
    undefined nor a plain object never passes. *)
Theorem X13_objectOf (c : ctor) (l : loc) (props : list (string * value))
    (silent : bool) (st : state) :
  NoDup (map fst props) ->
  isPlainObject (VObj l props) = true ->
  let d := objectOf (TCtor c) in
  let own := "objectOf - value must be an object of " +:+ dq
             +:+ show_expected (ctor_name c) +:+ dq in
  (forallb readable (map snd props) = true ->
   (validateType (TPlain d) (VObj l props) silent st
    = (Ok (RBool true), after_buffer st)
    <-> forallb (element_ok c) (map snd props) = true))
  /\ (forall pre x post s,
        map snd props = pre ++ x :: post ->
        forallb (element_ok c) pre = true ->
        element_ok c x = false -> stock x = true ->
        Js.to_string x = Js.Got s ->
        validateType (TPlain d) (VObj l props) silent st
        = if silent
          then (Ok (RMsg (diagnostic [mismatch c s; own])), after_buffer st)
          else (Ok (RBool false),
                emit (diagnostic [mismatch c s; own]) (after_buffer st)))
  /\ (forall v st', v <> VUndefined -> isPlainObject v = false ->
        validateType (TPlain d) v silent st <> (Ok (RBool true), st')).
Proof.
  intros Hnodup Hplain d own.
  assert (type_stage validateType d (VObj l props) st
          = (Ok (Some (true, Some "Object")), st)) as Hstage.
  { rewrite (single_ctor_stage d CObject (VObj l props) st) by done.
    by replace (accepted_by CObject (VObj l props)) with true. }
  split; [|split].
  - intros _. rewrite validateType_unfold. cbn [typeToCheck_of].
    unfold validateType_body, bind at 1. rewrite Hstage.
    split.
    + intros H.
      assert (exists st', validator_stage d (VObj l props) silent st
                          = (Ok (RBool true), st')) as Hex by eauto.
      apply (validator_stage_true d _ silent st _ Logic.eq_refl) in Hex
        as [st' Hrun].
      change (arg0 [VObj l props]) with (VObj l props) in Hrun.
      rewrite (own_values_props l props Hnodup) in Hrun.
      by apply iterate_true in Hrun as [Hall _].
    + intros Hall. apply (validator_stage_quiet d _ _ silent st Logic.eq_refl).
      change (arg0 [VObj l props]) with (VObj l props).
      rewrite (own_values_props l props Hnodup). by apply iterate_true.
  - intros pre x post s Hsplit Hpre Hx Hstock Hs.
    rewrite validateType_unfold. cbn [typeToCheck_of].
    unfold validateType_body, bind at 1. rewrite Hstage.
    apply (validator_stage_warnings d _ _ silent st _ _ Logic.eq_refl).
    change (arg0 [VObj l props]) with (VObj l props).
    rewrite (own_values_props l props Hnodup), Hsplit.
    by apply iterate_false.
  - intros v st' Hv Hobj H.
    assert (exists st', validateType (TPlain d) v silent st
                        = (Ok (RBool true), st')) as Hex by eauto.
    apply (single_ctor_passes d CObject v silent st Logic.eq_refl) in Hex
      as [Hacc _]; [|by destruct v].
    unfold accepted_by in Hacc. simpl in Hacc. congruence.
Qed.

Lemma X13_witness :
  validateType (TPlain (objectOf (TCtor CString)))
    (VObj 0 [("a", VStr "x"); ("b", VUndefined)]) false init
  = (Ok (RBool true), after_buffer init).
Proof.
  apply (X13_objectOf CString 0 [("a", VStr "x"); ("b", VUndefined)] false init).
  - apply (bool_decide_unpack _). vm_compute. exact I.
  - reflexivity.
  - reflexivity.
  - reflexivity.
Defined.

(** ** [shape]: strict and loose *)

Lemma every_M_ext {A} (f g : A -> M bool) l :
  (forall x, x ∈ l -> forall st, f x st = g x st) ->
  forall st, every_M f l st = every_M g l st.
Proof.
  induction l as [|x l IH]; intros Hfg st; [reflexivity|].
  simpl. unfold bind. rewrite (Hfg x) by by left.
  destruct (g x st) as [[[]|e] st1]; try reflexivity.
  apply IH. intros y Hy. apply Hfg. by right.
Qed.

Lemma all_pass_each {A} (f : A -> M bool) l st st' :
  all_pass f l st st' ->
  forall x, x ∈ l -> exists s s1, f x s = (Ok true, s1).
Proof.
  induction 1 as [|y l st st1 st' Hy _ IH]; intros x Hx.
  - by apply elem_of_nil in Hx.
  - apply elem_of_cons in Hx as [-> | Hx]; [eauto | by apply IH].
Qed.

(** On a declared key the callback does not read [this]. *)
Lemma shape_every_declared obj this this' props key st :
  key ∈ map fst obj ->
  shape_every obj this props key st = shape_every obj this' props key st.
Proof.
  intros Hkey. unfold shape_every.
  destruct (absent (map fst obj) key) eqn:Habs; [|reflexivity].
  by apply absent_spec in Habs.
Qed.

Lemma shape_validator_declared obj this this' l props st :
  (forall key, key ∈ map fst props -> key ∈ map fst obj) ->
  shape_validator obj this [VObj l props] st
  = shape_validator obj this' [VObj l props] st.
Proof.
  intros Hkeys. unfold shape_validator.
  change (arg0 [VObj l props]) with (VObj l props). cbv beta iota zeta.
  destruct (negb (isPlainObject _)); [reflexivity|].
  destruct (_ && _); [reflexivity|].
  apply every_M_ext. intros key Hkey s.
  by apply shape_every_declared, Hkeys.
Qed.

Lemma shape_validator_strict obj this l props st st' :
  this_isLoose this <> Some true ->
  shape_validator obj this [VObj l props] st = (Ok true, st') ->
  (forall key, key ∈ map fst props -> key ∈ map fst obj)
  /\ (forall key, ~ required_absent obj props key).
Proof.
  intros Hstrict. unfold shape_validator.
  change (arg0 [VObj l props]) with (VObj l props). cbv beta iota zeta.
  destruct (negb (isPlainObject _)); [discriminate|].
  set (requiredKeys := filter _ (map fst obj)).
  destruct (negb (bool_decide (requiredKeys = []))
            && existsb (absent (map fst props)) requiredKeys) eqn:Hmissing.
  - unfold bind. destruct (filter _ requiredKeys) as [|m [|m' rest]];
      rewrite warn_run; discriminate.
  - intros Hall%every_M_true. split.
    + intros key Hkey.
      destruct (all_pass_each _ _ _ _ Hall key Hkey) as (s & s1 & Hrun).
      apply shape_every_true in Hrun as [(_ & Hloose & _) | (t & Ht & _)];
        [done|].
      apply get_is_Some. eauto.
    + intros key Habsent%missing_spec.
      apply list_elem_of_filter in Habsent as [Habs Hreq].
      fold requiredKeys in Hreq.
      apply andb_false_iff in Hmissing as [Hnil | Hnone].
      * apply negb_false_iff, bool_decide_eq_true in Hnil.
        rewrite Hnil in Hreq. by apply elem_of_nil in Hreq.
      * apply not_true_iff_false in Hnone. apply Hnone, existsb_exists.
        exists key. split; [by apply list_elem_of_In | by apply Is_true_true].
Qed.

Lemma shape_loose_same obj l props silent st :
  (forall key, key ∈ map fst props -> key ∈ map fst obj) ->
  validateType (TPlain (loose (shape obj))) (VObj l props) silent st
  = validateType (TPlain (shape obj)) (VObj l props) silent st.
Proof.
  intros Hkeys. rewrite !validateType_unfold. cbn [typeToCheck_of].
  unfold validateType_body. unfold bind.
  rewrite (single_ctor_check (loose (shape obj)) CObject (VObj l props) st)
    by done.
  rewrite (single_ctor_check (shape obj) CObject (VObj l props) st) by done.
  unfold bind, attempted, native_check. cbn [ctor_name bool_decide].
  simpl. destruct (Js.own props "constructor"); [reflexivity|].
  unfold validator_stage, bind. simpl.
  by rewrite (shape_validator_declared obj (ctx_of (loose (shape obj)))
                (ctx_of (shape obj)) l props _ Hkeys).
Qed.

(** X14. A plain object that passes validation against [shape(obj)] has no
    key that [obj] does not declare and lacks no key that [obj] requires,
    and it passes against [shape(obj).loose] as well. On an object all of
    whose keys are declared, the loose and the strict shape give the same
    result and the same warnings. *)
Theorem X14_shape_strict_and_loose (obj : list (string * tyval)) (l : loc)
    (props : list (string * value)) (silent : bool) (st : state) :
  (forall st',
     validateType (TPlain (shape obj)) (VObj l props) silent st
     = (Ok (RBool true), st') ->
     (forall key, key ∈ map fst props -> key ∈ map fst obj)
     /\ (forall key, ~ required_absent obj props key)
     /\ validateType (TPlain (loose (shape obj))) (VObj l props) silent st
        = (Ok (RBool true), st'))
  /\ ((forall key, key ∈ map fst props -> key ∈ map fst obj) ->
      validateType (TPlain (loose (shape obj))) (VObj l props) silent st
      = validateType (TPlain (shape obj)) (VObj l props) silent st).
Proof.
  split; [|apply shape_loose_same].
  intros st' Hpass.
  assert (exists st1,
            shape_validator obj (ctx_of (shape obj)) [VObj l props]
              (buffered st) = (Ok true, st1)) as [st1 Hrun].
  { assert (exists st', validateType (TPlain (shape obj)) (VObj l props)
                          silent st = (Ok (RBool true), st')) as Hex by eauto.
    apply (single_ctor_passes (shape obj) CObject (VObj l props) silent st
             Logic.eq_refl Logic.eq_refl) in Hex as [_ Hf].
    exact (Hf _ Logic.eq_refl). }
  apply shape_validator_strict in Hrun as [Hkeys Hreq]; [|discriminate].
  split; [exact Hkeys|]. split; [exact Hreq|].
  by rewrite shape_loose_same.
Qed.

Lemma X14_witness :
  let obj := [("id", TCtor CNumber); ("name", TCtor CString)] in
  let v := VObj 1 [("id", VNum (Int 10))] in
  validateType (TPlain (loose (shape obj))) v false init
  = validateType (TPlain (shape obj)) v false init.
Proof.
  intros obj v.
  apply (proj2 (X14_shape_strict_and_loose obj 1 [("id", VNum (Int 10))]
                  false init)).
  intros key Hkey%list_elem_of_In. apply list_elem_of_In.
  simpl in *. tauto.
Defined.

(** ** [extend]: arrays, and descriptors without a parent *)

Lemma extend_one_fresh props (reg : gmap string member) :
  reg !! name props = None ->
  exists m, extend_one props reg = (Ok tt, <[name props := m]> reg).
Proof.
  intros Hfree. unfold extend_one.
  rewrite bool_decide_eq_false_2 by (rewrite Hfree; by intros [? ?]).
  destruct (match type_ (opts props) with
            | Some (TPlain type) => _ | _ => _ end) as [o v].
  by eexists.
Qed.

Lemma extend_many_cons a ps (reg : gmap string member) :
  extend (Many (a :: ps)) reg
  = match extend a reg with
    | (Ok _, reg1) => extend (Many ps) reg1
    | (Throw e, reg1) => (Throw e, reg1)
    end.
Proof. simpl. unfold bind. by destruct (extend a reg) as [[[]|e] reg1]. Qed.

(** X15. [extend] given an array of objects returns normally exactly when
    the names are pairwise distinct and none of them is owned by [VueTypes]
    yet; the names owned afterwards are those owned before and the names of
    the array. *)
Theorem X15_extend_array (ps : list spec) (reg : gmap string member) :
  ((exists reg', extend (Many (map One ps)) reg = (Ok tt, reg'))
   <-> NoDup (map name ps) /\ forall p, p ∈ ps -> reg !! name p = None)
  /\ forall reg', extend (Many (map One ps)) reg = (Ok tt, reg') ->
       forall n, is_Some (reg' !! n)
                 <-> is_Some (reg !! n) \/ n ∈ map name ps.
Proof.
  revert reg. induction ps as [|p ps IH]; intros reg.
  - split.
    + split; [|by eexists]. intros _. split; [constructor|].
      by intros p ?%elem_of_nil.
    + intros reg' [= <-] n. rewrite elem_of_nil. tauto.
  - cbn [map]. rewrite extend_many_cons. cbn [extend].
    destruct (reg !! name p) as [m|] eqn:Hp.
    + rewrite extend_one_taken by (rewrite Hp; by eexists). split.
      * split; [by intros [? ?]|]. intros [_ Hfree].
        rewrite Hfree in Hp by by left. discriminate.
      * discriminate.
    + destruct (extend_one_fresh p reg Hp) as [m ->].
      destruct (IH (<[name p := m]> reg)) as [Hiff Hdom]. split.
      * rewrite Hiff, NoDup_cons. split.
        -- intros [Hnodup Hfree]. split; [split; [|exact Hnodup]|].
           ++ intros (q & Hq & Hin)%list_elem_of_fmap.
              specialize (Hfree q Hin). rewrite <- Hq in Hfree.
              by rewrite lookup_insert_eq in Hfree.
           ++ intros q [-> | Hq]%elem_of_cons; [exact Hp|].
              specialize (Hfree q Hq).
              apply lookup_insert_None in Hfree. tauto.
        -- intros [[Hnew Hnodup] Hfree]. split; [exact Hnodup|].
           intros q Hq. apply lookup_insert_None. split.
           ++ apply Hfree. by right.
           ++ intros Heq. apply Hnew, list_elem_of_fmap. eauto.
      * intros reg' Hrun n. rewrite (Hdom reg' Hrun n), elem_of_cons.
        rewrite lookup_insert_is_Some. destruct (decide (name p = n)); 
          intuition congruence.
Qed.

Lemma X15_witness :
  exists reg',
    extend (Many (map One
      [Spec "positive" false true (literal (Some (TCtor CNumber)) None);
       Spec "negative" false true (literal (Some (TCtor CNumber)) None)]))
      initial
    = (Ok tt, reg').
Proof.
  apply (proj1 (X15_extend_array _ initial)). split.
  - apply (bool_decide_unpack _). vm_compute. exact I.
  - intros p Hp%list_elem_of_In. simpl in Hp.
    destruct Hp as [<- | [<- | []]]; vm_compute; reflexivity.
Defined.

(** X16. [extend] with a fresh name and no descriptor as `type`: the
    property it defines gives a descriptor of that name with the `type`,
    `required` and `default` of the argument; it has the [validate] setter
    exactly when the `validate` flag was set; read as an accessor it has
    the validator of the argument, called as a function its validator is
    the argument's with the call arguments put before the value. *)
Theorem X16_extend_plain (props : spec) (reg : gmap string member)
    (args : list value) :
  reg !! name props = None ->
  (forall parent, type_ (opts props) = Some (TPlain parent) ->
                  name_truthy (_vueTypes_name parent) = false) ->
  exists m d,
    extend (One props) reg = (Ok tt, <[name props := m]> reg)
    /\ instantiate (name props) m args = Some d
    /\ _vueTypes_name d = Some (name props)
    /\ type_ d = type_ (opts props)
    /\ required d = required (opts props)
    /\ default_ d = default_ (opts props)
    /\ validate_ d
       = (if validate_flag props then ValidateSetter else ValidateStub)
    /\ match validator (opts props) with
       | None => validator d = None
       | Some f =>
           exists g, validator d = Some g
             /\ forall this rest st,
                  g this rest st = f this (received props args rest) st
       end.
Proof.
  intros Hfree Hplain. cbn [extend]. unfold extend_one.
  rewrite bool_decide_eq_false_2 by (rewrite Hfree; by intros [? ?]).
  assert (match type_ (opts props) with
          | Some (TPlain type) =>
              if name_truthy (_vueTypes_name type)
              then (match validator type with
                    | Some type_validator =>
                        set_validator
                          (Some (both type type_validator
                                   (default stubTrue (validator (opts props)))))
                          (inherit type (opts props))
                    | None => inherit type (opts props)
                    end, false)
              else (opts props, validate_flag props)
          | _ => (opts props, validate_flag props)
          end = (opts props, validate_flag props)) as ->.
  { destruct (type_ (opts props)) as [[ | | | |parent| ]|]; try reflexivity.
    by rewrite (Hplain parent). }
  unfold received. destruct (getter props); eexists _, _;
    (split; [reflexivity|]); (split; [reflexivity|]);
    destruct (validator (opts props)) as [f|] eqn:Hf; simpl;
    repeat (split; [reflexivity|]); try exact Hf;
    eexists; (split; [first [exact Hf | reflexivity] | reflexivity]).
Qed.

Lemma X16_witness :
  exists m d,
    extend (One (Spec "positive" true false
                   (literal (Some (TCtor CNumber)) None))) initial
    = (Ok tt, <["positive" := m]> initial)
    /\ instantiate "positive" m [] = Some d
    /\ validate_ d = ValidateSetter.
Proof.
  destruct (X16_extend_plain
              (Spec "positive" true false (literal (Some (TCtor CNumber)) None))
              initial [] Logic.eq_refl)
    as (m & d & Hext & Hinst & _ & _ & _ & _ & Hvalidate & _).
  - intros parent [=].
  - by exists m, d.
Defined.

(** ** The built-in descriptors *)

(** X17. [any] accepts every value and leaves the state as it is;
    [symbol] accepts the symbols and nothing else, undefined included;
    [integer] accepts undefined and the integral numbers, and only the
    latter once it is required: a number with a fractional part, NaN and
    the infinities are numbers that it rejects. *)
Theorem X17_any_symbol_integer (v : value) (silent : bool) (st : state) :
  validateType (TPlain any) v silent st = (Ok (RBool true), st)
  /\ ((exists st',
         validateType (TPlain symbol) v silent st = (Ok (RBool true), st'))
      <-> exists id, v = VSym id)
  /\ ((exists st',
         validateType (TPlain integer_base) v silent st
         = (Ok (RBool true), st'))
      <-> v = VUndefined \/ exists z, v = VNum (Int z))
  /\ ((exists st',
         validateType (TPlain (isRequired integer_base)) v silent st
         = (Ok (RBool true), st'))
      <-> exists z, v = VNum (Int z))
  /\ (forall n, (forall z, n <> Int z) ->
        accepted_by CNumber (VNum n) = true
        /\ fst (validateType (TPlain integer_base) (VNum n) silent st)
           <> Ok (RBool true)).
Proof.
  assert (forall w,
            (exists st',
               validateType (TPlain integer_base) w silent st
               = (Ok (RBool true), st'))
            <-> w = VUndefined \/ exists z, w = VNum (Int z)) as Hinteger.
  { intros w. destruct (Js.is_undefined w) eqn:Hw.
    - destruct w; try discriminate.
      rewrite short_circuit; [|eexists; split; reflexivity | discriminate].
      split; [by left | by eexists].
    - rewrite (single_ctor_passes integer_base CNumber w silent st Logic.eq_refl)
        by exact Hw.
      split.
      + intros [_ Hint]. destruct (Hint _ Logic.eq_refl) as [st' H].
        right. change (arg0 [w]) with w in H. unfold ret in H.
        destruct w as [ | | |[| |z|text]| | | | | | ]; try discriminate.
        by eexists.
      + intros [-> | [z ->]]; [discriminate|]. split; [reflexivity|].
        intros f [= <-]. by eexists. }
  split; [|split; [|split; [exact (Hinteger v)|split]]].
  - apply unconstrained_no_validator; [by right | reflexivity].
  - rewrite (unconstrained_passes symbol v silent st _ (or_intror Logic.eq_refl)
               Logic.eq_refl).
    change (arg0 [v]) with v. unfold ret. split.
    + intros [st' H]. destruct v; try discriminate. by eexists.
    + intros [id ->]. by eexists.
  - rewrite (single_ctor_passes (isRequired integer_base) CNumber v silent st
               Logic.eq_refl) by reflexivity.
    split.
    + intros [_ Hint]. destruct (Hint _ Logic.eq_refl) as [st' H].
      change (arg0 [v]) with v in H. unfold ret in H.
      destruct v as [ | | |[| |z|text]| | | | | | ]; try discriminate.
      by eexists.
    + intros [z ->]. split; [reflexivity|]. intros f [= <-]. by eexists.
  - intros n Hn. split; [reflexivity|]. intros Hpass.
    destruct (validateType _ _ _ _) as [o st'] eqn:Hrun. simpl in Hpass.
    subst o.
    destruct (proj1 (Hinteger (VNum n))) as [[=] | [z [= ->]]]; [by eexists|].
    by apply (Hn z).
Qed.

Lemma X17_witness :
  (exists st',
     validateType (TPlain (isRequired integer_base)) (VNum (Int 7)) false init
     = (Ok (RBool true), st'))
  /\ fst (validateType (TPlain integer_base) (VNum (Frac "0.5")) false init)
     <> Ok (RBool true).
Proof.
  split.
  - apply (proj1 (proj2 (proj2 (proj2
             (X17_any_symbol_integer (VNum (Int 7)) false init))))).
    by exists 7%Z.
  - apply (proj2 (proj2 (proj2 (proj2
             (X17_any_symbol_integer (VNum (Int 7)) false init))))
             (Frac "0.5")).
    discriminate.
Defined.

Lemma plain_ctor_result d c v silent st :
  type_ d = Some (TCtor c) -> validator d = None ->
  negb (default false (required d)) && Js.is_undefined v = false ->
  native_check c v = Js.Got (accepted_by c v) ->
  validateType (TPlain d) v silent st
  = if accepted_by c v then (Ok (RBool true), st)
    else type_failure d v silent (ctor_name c) st.
Proof.
  intros Hty Hf Hgo Hcheck. rewrite validateType_unfold. cbn [typeToCheck_of].
  unfold validateType_body, bind at 1.
  rewrite (single_ctor_stage d c v st Hty Hgo Hcheck).
  destruct (accepted_by c v); [|reflexivity].
  unfold validator_stage. by rewrite Hf.
Qed.

(** X18. The getters [func], [bool], [string], [number], [array] and
    [object], for any sensible default that converts to a string and whose
    constructor is read without failure: the
    descriptor has the constructor as its type, no validator, and the
    [validate] setter; the sensible default is kept when it is a function or
    the constructor accepts it, and dropped otherwise; a value the name of
    whose constructor is read without a call of a function that it holds
    passes validation against the descriptor exactly when it is undefined
    or the constructor accepts it. *)
Theorem X18_primitive_getters (name : string) (c : ctor) (sensible : value)
    (st : state) :
  plain_reads sensible = true ->
  exists d st',
    primitive name c sensible st = (Ok d, st')
    /\ _vueTypes_name d = Some name /\ type_ d = Some (TCtor c)
    /\ required d = None /\ validator d = None
    /\ validate_ d = ValidateSetter
    /\ default_ d
       = (if Js.is_undefined sensible then None
          else if isFunction sensible || accepted_by c sensible
               then Some (stored sensible) else None)
    /\ forall v silent s,
         readable v = true ->
         (exists s',
            validateType (TPlain d) v silent s = (Ok (RBool true), s'))
         <-> v = VUndefined \/ accepted_by c v = true.
Proof.
  intros Hreads. unfold plain_reads in Hreads.
  destruct (Js.to_string sensible) as [text| |] eqn:Htext; try discriminate.
  destruct (getNativeType sensible) as [native| |] eqn:Hnative;
    try discriminate.
  unfold primitive.
  set (base := toType name (literal (Some (TCtor c)) None) true).
  assert (forall df v silent s,
            readable v = true ->
            (exists s', validateType (TPlain (set_default df base)) v silent s
                        = (Ok (RBool true), s'))
            <-> v = VUndefined \/ accepted_by c v = true) as Hvalidate.
  { intros df v silent s _. destruct (Js.is_undefined v) eqn:Hv.
    - destruct v; try discriminate.
      rewrite short_circuit; [|eexists; split; reflexivity | discriminate].
      split; [by left | by eexists].
    - rewrite (single_ctor_passes (set_default df base) c v silent s
                 Logic.eq_refl) by exact Hv.
      split.
      + intros [H _]. by right.
      + intros [-> | H]; [discriminate|]. split; [exact H|]. discriminate. }
  destruct (Js.is_undefined sensible) eqn:Hundef.
  { destruct sensible; try discriminate. exists base, st.
    split; [reflexivity|]. repeat (split; [reflexivity|]).
    apply (Hvalidate None). }
  assert (~ (sensible = VUndefined /\ default_truthy (default_ base) = false))
    as Hguard by (intros [-> _]; discriminate).
  destruct (isFunction sensible) eqn:Hfn.
  { rewrite def_function by exact Hfn. eexists _, _.
    split; [reflexivity|]. repeat (split; [reflexivity|]). split.
    - destruct sensible; try discriminate. reflexivity.
    - apply Hvalidate. }
  pose proof (plain_ctor_result base c sensible false st Logic.eq_refl
                Logic.eq_refl Hundef
                (native_check_got c sensible native Hnative)) as Hrun.
  simpl. destruct (accepted_by c sensible) eqn:Hacc.
  - rewrite (def_accepted base sensible st st Hguard Hfn Hrun). eexists _, _.
    split; [reflexivity|]. repeat (split; [reflexivity|]). apply Hvalidate.
  - unfold type_failure, template, attempted, bind in Hrun.
    rewrite Htext in Hrun.
    simpl in Hrun. rewrite warn_run in Hrun.
    rewrite (def_rejected base sensible st _ text Hguard Hfn Hrun Htext).
    eexists _, _. split; [reflexivity|]. repeat (split; [reflexivity|]).
    apply (Hvalidate None).
Qed.

Lemma X18_witness :
  exists d st',
    primitive "string" CString (VStr EmptyString) init = (Ok d, st')
    /\ default_ d = Some (DValue (VStr EmptyString)).
Proof.
  destruct (X18_primitive_getters "string" CString (VStr EmptyString) init)
    as (d & st' & Hrun & _ & _ & _ & _ & _ & Hdefault & _).
  - reflexivity.
  - by exists d, st'.
Defined.

(** X19. [utils.validate(value, type)] on a native type (null, a
    constructor, an array of native types, nested or not) and a value that
    converts to a string and whose constructor is read without failure
    returns what [native_accepts] computes and leaves the state as it is: a
    union accepts undefined and whatever one of its members accepts. *)
Theorem X19_native_types_decided (type : tyval) (v : value) (st : state) :
  native type -> plain_reads v = true ->
  utils_validate v type st = (Ok (native_accepts type v), st).
Proof. intros Hnative Hreads. by apply native_types_decided. Qed.

Lemma X19_witness :
  utils_validate (VNum (Int 1))
    (TArray [TCtor CString; TArray [TCtor CBoolean; TCtor CNumber]]) init
  = (Ok true, init).
Proof.
  apply (X19_native_types_decided
           (TArray [TCtor CString; TArray [TCtor CBoolean; TCtor CNumber]])
           (VNum (Int 1)) init).
  - repeat constructor.
  - reflexivity.
Defined.

(** ** The [validate] setter *)

(** X20. On a descriptor that has the [validate] setter, [validate] stores
    the function without a warning and the function given last replaces
    the one given before. The validator is then the second stage of
    validation: on an unconstrained descriptor a value passes exactly when
    the function returns true, on a descriptor typed by one constructor a
    value the name of whose constructor is read without a call of a
    function that it holds passes exactly when the constructor accepts it
    and the function returns true. *)
Theorem X20_validate_replaces_validator (d : descriptor) (f g : validator_fn)
    (v : value) (silent : bool) (st : state) :
  validate_ d = ValidateSetter ->
  exists d1 d2,
    validate d f st = (Ok d1, st) /\ validate d1 g st = (Ok d2, st)
    /\ validate d g st = (Ok d2, st)
    /\ (unconstrained d ->
        ((exists st',
            validateType (TPlain d2) v silent st = (Ok (RBool true), st'))
         <-> exists st', g (ctx_of d) [v] (buffered st) = (Ok true, st')))
    /\ (forall c, type_ d = Some (TCtor c) ->
        required d = Some true \/ v <> VUndefined ->
        readable v = true ->
        ((exists st',
            validateType (TPlain d2) v silent st = (Ok (RBool true), st'))
         <-> accepted_by c v = true
             /\ exists st', g (ctx_of d) [v] (buffered st) = (Ok true, st'))).
Proof.
  intros Hsetter. exists (set_validator (Some f) d), (set_validator (Some g) d).
  unfold validate. simpl. rewrite Hsetter.
  split; [reflexivity|]. split; [reflexivity|]. split; [reflexivity|]. split.
  - intros Hty.
    apply (unconstrained_passes (set_validator (Some g) d) v silent st g);
      [exact Hty | reflexivity].
  - intros c Hty Hgo _.
    rewrite (single_ctor_passes (set_validator (Some g) d) c v silent st Hty).
    + split.
      * intros [Hacc Hrun]. split; [exact Hacc|]. by apply Hrun.
      * intros [Hacc Hrun]. split; [exact Hacc|]. by intros ? [= <-].
    + simpl. destruct Hgo as [-> | Hv]; [reflexivity|].
      destruct v; try done. all: by rewrite andb_false_r.
Qed.

Lemma X20_witness :
  exists d2,
    validate any (fun _ _ => ret false) init = (Ok d2, init)
    /\ validateType (TPlain d2) VNull true init
       <> (Ok (RBool true), after_buffer init).
Proof.
  destruct (X20_validate_replaces_validator any (fun _ _ => ret true)
              (fun _ _ => ret false) VNull true init Logic.eq_refl)
    as (d1 & d2 & _ & _ & Hset & Hfree & _).
  exists d2. split; [exact Hset|]. intros Hpass.
  destruct (proj1 (Hfree (or_intror Logic.eq_refl))) as [st' Hrun];
    [by eexists | discriminate].
Defined.
